(** * Bunview: the host-side window controller (lib/index.js)

    A shallow embedding of the [Window] class of lib/index.js: the
    configuration merge of the constructor, the argument vector built by
    [display], the outbound encoder [write], the callback registry filled by
    [bind], and the inbound handler [ioHandlers.stdout] with the read loop
    that feeds it.

    Conventions of the model.
    - Text is a [string] of bytes: a JavaScript string is represented by its
      UTF-8 encoding, and [TextDecoder.decode] is the identity on chunks.
    - A JSON number is kept as the exact decimal [m * 10^e] its literal
      denotes; IEEE-754 rounding is not modelled.
    - [#bindIndex] is a [nat]; the source's counter is exact below 2^53.
    - User callables and event subscribers are opaque tokens; calling one is
      recorded in the window's [trace] and returns normally, and so does
      [emit] (the emitter's unhandled [error] event is not modelled).
    - What the transport does with a write to a process that has been
      killed is outside the model. *)

From Stdlib Require Import String Ascii List ZArith NArith Bool Lia.
From Stdlib Require Import DecimalString.
From Stdlib Require DecimalFacts DecimalNat DecimalZ.
Import ListNotations.

Open Scope string_scope.

(** ** Characters and text *)

Module Text.

Definition dq : ascii := "034"%char.          (* the double quote *)
Definition backslash : ascii := "092"%char.
Definition newline : ascii := "010"%char.

Definition code (c : ascii) : N := N_of_ascii c.

(** Source text written with apostrophes stands for the same text with double
    quotes: [q "{'a':1}"] is the line [{"a":1}]. *)
Fixpoint q (s : string) : string :=
  match s with
  | EmptyString => EmptyString
  | String c r => String (if Ascii.eqb c "'"%char then dq else c) (q r)
  end.

Fixpoint concat_all (l : list string) : string :=
  match l with
  | [] => ""
  | s :: r => s ++ concat_all r
  end.

End Text.
Import Text.

(** ** JavaScript values that travel over the wire *)

(** What [JSON.parse] can return, plus [undefined] (the value of a missing
    property).  An object is its list of own properties. *)
#[warnings="-register-all"]
Inductive value : Type :=
| VUndefined
| VNull
| VBool (b : bool)
| VNumber (m e : Z)
| VString (s : string)
| VArray (l : list value)
| VObject (props : list (string * value)).

Definition object := list (string * value).

(** [o[k]] on own properties. *)
Fixpoint obj_get (o : object) (k : string) : value :=
  match o with
  | [] => VUndefined
  | (k', v) :: r => if String.eqb k' k then v else obj_get r k
  end.

Fixpoint obj_has (o : object) (k : string) : bool :=
  match o with
  | [] => false
  | (k', _) :: r => String.eqb k' k || obj_has r k
  end.

(** [o[k] = v]: an existing property keeps its place, a new one goes last. *)
Fixpoint obj_set (o : object) (k : string) (v : value) : object :=
  match o with
  | [] => [(k, v)]
  | (k', v') :: r =>
      if String.eqb k' k then (k', v) :: r else (k', v') :: obj_set r k v
  end.

(** Object spread: [{...a, ...b}] copies the properties of [a], then those of
    [b], each by assignment. *)
Definition assign_all (target src : object) : object :=
  fold_left (fun acc kv => obj_set acc (fst kv) (snd kv)) src target.

Definition spread (a b : object) : object := assign_all (assign_all [] a) b.

(** ToBoolean. *)
Definition truthy (v : value) : bool :=
  match v with
  | VUndefined | VNull => false
  | VBool b => b
  | VNumber m _ => negb (m =? 0)%Z
  | VString s => negb (String.eqb s "")
  | VArray _ | VObject _ => true
  end.

(** The integer a number denotes, when it denotes one. *)
Definition number_to_int (m e : Z) : option Z :=
  if (0 <=? e)%Z then Some (m * 10 ^ e)%Z
  else if (m mod 10 ^ (- e) =? 0)%Z then Some (m / 10 ^ (- e))%Z
  else None.

Definition string_of_nat (n : nat) : string :=
  NilZero.string_of_uint (Nat.to_uint n).

Definition string_of_Z (z : Z) : string :=
  NilZero.string_of_int (Z.to_int z).

(** ** JSON text: strings *)

Module JSON.

Local Open Scope N_scope.
Local Open Scope string_scope.

Definition hex_digit (n : N) : ascii :=
  ascii_of_N (if (n <? 10)%N then 48 + n else 87 + n)%N.

Definition hex_val (c : ascii) : option N :=
  let n := code c in
  if ((48 <=? n) && (n <=? 57))%N then Some (n - 48)%N
  else if ((97 <=? n) && (n <=? 102))%N then Some (n - 87)%N
  else if ((65 <=? n) && (n <=? 70))%N then Some (n - 55)%N
  else None.

Definition hex4 (a b c d : ascii) : option N :=
  match hex_val a, hex_val b, hex_val c, hex_val d with
  | Some x, Some y, Some z, Some w => Some (((x * 16 + y) * 16 + z) * 16 + w)%N
  | _, _, _, _ => None
  end.

(** UTF-8 bytes of a code point. *)
Definition utf8 (n : N) : string :=
  let byte k := ascii_of_N k in
  if (n <? 128)%N then String (byte n) ""
  else if (n <? 2048)%N then
    String (byte (192 + n / 64)) (String (byte (128 + n mod 64)) "")
  else if (n <? 65536)%N then
    String (byte (224 + n / 4096))
      (String (byte (128 + (n / 64) mod 64)) (String (byte (128 + n mod 64)) ""))
  else
    String (byte (240 + n / 262144))
      (String (byte (128 + (n / 4096) mod 64))
         (String (byte (128 + (n / 64) mod 64))
            (String (byte (128 + n mod 64)) ""))).

Definition is_high (n : N) : bool := ((55296 <=? n) && (n <=? 56319))%N.
Definition is_low (n : N) : bool := ((56320 <=? n) && (n <=? 57343))%N.

Definition prepend (p : string) (r : option (string * string))
  : option (string * string) :=
  match r with
  | Some (s, rest) => Some (p ++ s, rest)
  | None => None
  end.

(** The characters of a string literal after its opening quote, up to and
    including the closing quote: the decoded string and the text that
    follows.  Unescaped control characters are a syntax error. *)
Fixpoint parse_string_body (s : string) : option (string * string) :=
  match s with
  | EmptyString => None
  | String c r =>
      if Ascii.eqb c dq then Some ("", r)
      else if Ascii.eqb c backslash then
        match r with
        | EmptyString => None
        | String x r1 =>
            if Ascii.eqb x "u"%char then
              match r1 with
              | String h1 (String h2 (String h3 (String h4 r5))) =>
                  match hex4 h1 h2 h3 h4 with
                  | None => None
                  | Some hi =>
                      if is_high hi then
                        match r5 with
                        | String b (String u
                            (String l1 (String l2 (String l3 (String l4 r11))))) =>
                            match
                              (if Ascii.eqb b backslash && Ascii.eqb u "u"%char
                               then hex4 l1 l2 l3 l4 else None)
                            with
                            | Some lo =>
                                if is_low lo then
                                  prepend
                                    (utf8 (65536 + (hi - 55296) * 1024
                                           + (lo - 56320))%N)
                                    (parse_string_body r11)
                                else prepend (utf8 hi) (parse_string_body r5)
                            | None => prepend (utf8 hi) (parse_string_body r5)
                            end
                        | _ => prepend (utf8 hi) (parse_string_body r5)
                        end
                      else prepend (utf8 hi) (parse_string_body r5)
                  end
              | _ => None
              end
            else
              match
                (if Ascii.eqb x dq then Some dq
                 else if Ascii.eqb x backslash then Some backslash
                 else if Ascii.eqb x "/"%char then Some "/"%char
                 else if Ascii.eqb x "b"%char then Some "008"%char
                 else if Ascii.eqb x "f"%char then Some "012"%char
                 else if Ascii.eqb x "n"%char then Some "010"%char
                 else if Ascii.eqb x "r"%char then Some "013"%char
                 else if Ascii.eqb x "t"%char then Some "009"%char
                 else None)
              with
              | Some y => prepend (String y "") (parse_string_body r1)
              | None => None
              end
        end
      else if (code c <? 32)%N then None
      else prepend (String c "") (parse_string_body r)
  end.

(** What [parse_string_body] looks for after the escape of a high
    surrogate: the escape of a low surrogate, which it joins with the high
    one into one code point. *)
Definition low_surrogate (s : string) : option (N * string) :=
  match s with
  | String b (String u (String l1 (String l2 (String l3 (String l4 r11))))) =>
      match
        (if Ascii.eqb b backslash && Ascii.eqb u "u"%char
         then hex4 l1 l2 l3 l4 else None)
      with
      | Some lo => if is_low lo then Some (lo, r11) else None
      | None => None
      end
  | _ => None
  end.

(** QuoteJSONString, character by character. *)
Definition quote_char (c : ascii) : string :=
  let esc x := String backslash (String x "") in
  if Ascii.eqb c dq then esc dq
  else if Ascii.eqb c backslash then esc backslash
  else if Ascii.eqb c "008"%char then esc "b"%char
  else if Ascii.eqb c "012"%char then esc "f"%char
  else if Ascii.eqb c "010"%char then esc "n"%char
  else if Ascii.eqb c "013"%char then esc "r"%char
  else if Ascii.eqb c "009"%char then esc "t"%char
  else if (code c <? 32)%N then
    String backslash
      (String "u"%char (String "0"%char (String "0"%char
         (String (hex_digit (code c / 16)) (String (hex_digit (code c mod 16)) "")))))
  else String c "".

Fixpoint quote_body (s : string) : string :=
  match s with
  | EmptyString => ""
  | String c r => quote_char c ++ quote_body r
  end.

Definition quote (s : string) : string :=
  String dq (quote_body s ++ String dq "").


(** ** JSON text: values *)

Definition is_ws (c : ascii) : bool :=
  Ascii.eqb c " "%char || Ascii.eqb c "009"%char
  || Ascii.eqb c "010"%char || Ascii.eqb c "013"%char.

Fixpoint skip_ws (s : string) : string :=
  match s with
  | String c r => if is_ws c then skip_ws r else s
  | EmptyString => s
  end.

Definition digit_val (c : ascii) : option Z :=
  let n := code c in
  if ((48 <=? n) && (n <=? 57))%N then Some (Z.of_N (n - 48)) else None.

(** Reads the longest run of digits: the number they spell after [acc], how
    many were read, and the rest. *)
Fixpoint digits (s : string) (acc : Z) (count : nat) : Z * nat * string :=
  match s with
  | String c r =>
      match digit_val c with
      | Some d => digits r (acc * 10 + d)%Z (S count)
      | None => (acc, count, s)
      end
  | EmptyString => (acc, count, s)
  end.

(** The integer part: a lone [0], or a run of digits that starts with 1-9. *)
Definition int_part (s : string) : option (Z * string) :=
  match s with
  | String c r =>
      match digit_val c with
      | Some 0%Z => Some (0%Z, r)
      | Some _ => let '(n, _, rest) := digits s 0%Z 0%nat in Some (n, rest)
      | None => None
      end
  | EmptyString => None
  end.

(** The fraction: the mantissa extended by the digits after the point, and
    how many there are. *)
Definition frac_part (m : Z) (s : string) : option (Z * Z * string) :=
  match s with
  | String c r =>
      if Ascii.eqb c "."%char then
        match digits r m 0%nat with
        | (_, O, _) => None
        | (m', k, rest) => Some (m', (- Z.of_nat k)%Z, rest)
        end
      else Some (m, 0%Z, s)
  | EmptyString => Some (m, 0%Z, s)
  end.

Definition exp_part (s : string) : option (Z * string) :=
  match s with
  | String c r =>
      if Ascii.eqb c "e"%char || Ascii.eqb c "E"%char then
        let '(neg, r') :=
          match r with
          | String sg r1 =>
              if Ascii.eqb sg "-"%char then (true, r1)
              else if Ascii.eqb sg "+"%char then (false, r1)
              else (false, r)
          | EmptyString => (false, r)
          end in
        match digits r' 0%Z 0%nat with
        | (_, O, _) => None
        | (x, _, rest) => Some ((if neg then - x else x)%Z, rest)
        end
      else Some (0%Z, s)
  | EmptyString => Some (0%Z, s)
  end.

Definition parse_number (s : string) : option (value * string) :=
  let '(neg, s1) :=
    match s with
    | String c r => if Ascii.eqb c "-"%char then (true, r) else (false, s)
    | EmptyString => (false, s)
    end in
  match int_part s1 with
  | None => None
  | Some (i, s2) =>
      match frac_part i s2 with
      | None => None
      | Some (m, e, s3) =>
          match exp_part s3 with
          | None => None
          | Some (x, s4) =>
              Some (VNumber (if neg then - m else m)%Z (e + x)%Z, s4)
          end
      end
  end.

(** A literal word at the head of the text. *)
Fixpoint expect (w s : string) : option string :=
  match w with
  | EmptyString => Some s
  | String c w' =>
      match s with
      | String c' s' => if Ascii.eqb c c' then expect w' s' else None
      | EmptyString => None
      end
  end.

(** One JSON value at the head of the text (after white space) and the text
    that follows it.  [fuel] bounds the nesting; [JSON_parse] supplies enough
    for the whole text.  A repeated key keeps its last value. *)
Fixpoint parse_value (fuel : nat) (s : string) : option (value * string) :=
  match fuel with
  | O => None
  | S f =>
      match skip_ws s with
      | EmptyString => None
      | String c r as t =>
          if Ascii.eqb c dq then
            match parse_string_body r with
            | Some (str, rest) => Some (VString str, rest)
            | None => None
            end
          else if Ascii.eqb c "["%char then
            match skip_ws r with
            | String c' r' =>
                if Ascii.eqb c' "]"%char then Some (VArray [], r')
                else parse_elements f r []
            | EmptyString => None
            end
          else if Ascii.eqb c "{"%char then
            match skip_ws r with
            | String c' r' =>
                if Ascii.eqb c' "}"%char then Some (VObject [], r')
                else parse_members f r []
            | EmptyString => None
            end
          else if Ascii.eqb c "n"%char then
            match expect "ull" r with
            | Some rest => Some (VNull, rest)
            | None => None
            end
          else if Ascii.eqb c "t"%char then
            match expect "rue" r with
            | Some rest => Some (VBool true, rest)
            | None => None
            end
          else if Ascii.eqb c "f"%char then
            match expect "alse" r with
            | Some rest => Some (VBool false, rest)
            | None => None
            end
          else parse_number t
      end
  end

with parse_elements (fuel : nat) (s : string) (acc : list value)
  : option (value * string) :=
  match fuel with
  | O => None
  | S f =>
      match parse_value f s with
      | None => None
      | Some (v, rest) =>
          match skip_ws rest with
          | String c r =>
              if Ascii.eqb c ","%char then parse_elements f r (acc ++ [v])%list
              else if Ascii.eqb c "]"%char then Some (VArray (acc ++ [v])%list, r)
              else None
          | EmptyString => None
          end
      end
  end

with parse_members (fuel : nat) (s : string) (acc : object)
  : option (value * string) :=
  match fuel with
  | O => None
  | S f =>
      match skip_ws s with
      | String c r =>
          if Ascii.eqb c dq then
            match parse_string_body r with
            | None => None
            | Some (key, rest) =>
                match skip_ws rest with
                | String c1 r1 =>
                    if Ascii.eqb c1 ":"%char then
                      match parse_value f r1 with
                      | None => None
                      | Some (v, rest2) =>
                          match skip_ws rest2 with
                          | String c2 r2 =>
                              if Ascii.eqb c2 ","%char
                              then parse_members f r2 (obj_set acc key v)
                              else if Ascii.eqb c2 "}"%char
                              then Some (VObject (obj_set acc key v), r2)
                              else None
                          | EmptyString => None
                          end
                      end
                    else None
                | EmptyString => None
                end
            end
          else None
      | EmptyString => None
      end
  end.

(** [JSON.parse(text)]: [None] is the SyntaxError it throws. *)
Definition JSON_parse (text : string) : option value :=
  match parse_value (S (2 * String.length text)) text with
  | Some (v, rest) =>
      match skip_ws rest with
      | EmptyString => Some v
      | String _ _ => None
      end
  | None => None
  end.

(** [JSON.stringify({type: type, data: data})] for two strings. *)
Definition JSON_stringify_msg (type data : string) : string :=
  "{" ++ quote "type" ++ ":" ++ quote type ++ ","
      ++ quote "data" ++ ":" ++ quote data ++ "}".

(** The line [write] sends: [JSON.stringify({type, data}) + "\n"]. *)
Definition envelope_text (type data : string) : string :=
  JSON_stringify_msg type data ++ String newline "".

End JSON.

(** ** The window object *)

Inductive js_error : Type := SyntaxError | TypeError.

(** A function value supplied by the application: a bound callback or an
    event subscriber. *)
Definition callable := nat.

(** What the window does to its collaborators, in the order it does it. *)
Inductive effect : Type :=
| Spawn (cmd : list string)                    (* spawn({cmd, stdio}) *)
| StdinWrite (text : string)                   (* process.stdin.write(text) *)
| Kill                                         (* process.kill() *)
| Emit (name : value) (args : list value)      (* this.emit(name, ...args) *)
| Invoke (f : callable) (args : list value)    (* f(...args) *)
| ConsoleLog (text : string).                  (* console.log(text) *)

Record Subprocess : Type := { cmd : list string; killed : bool }.

Record Window : Type := {
  config : object;
  process : option Subprocess;
  callbacks : list (option callable);    (* #callbacks, [None] is a hole *)
  bindIndex : nat;                       (* #bindIndex *)
  trace : list effect
}.

(** The result of running a method on a window: it returns, it throws, or it
    leaves the fragment of JavaScript this development models (a coercion of
    an array or an object to a primitive, the iteration of a string, the
    printing of a number that is not a small integer). *)
Inductive res (A : Type) : Type :=
| Done (a : A) (w : Window)
| Raise (e : js_error) (w : Window)
| Unmodelled.
Arguments Done {A} a w.
Arguments Raise {A} e w.
Arguments Unmodelled {A}.

Definition M (A : Type) : Type := Window -> res A.

Definition ret {A} (a : A) : M A := fun w => Done a w.
Definition throw {A} (e : js_error) : M A := fun w => Raise e w.
Definition unmodelled {A} : M A := fun _ => Unmodelled.
Definition bind_M {A B} (m : M A) (k : A -> M B) : M B :=
  fun w =>
    match m w with
    | Done a w' => k a w'
    | Raise e w' => Raise e w'
    | Unmodelled => Unmodelled
    end.

Declare Scope js_scope.
Delimit Scope js_scope with js.
Notation "x <- m ;; k" := (bind_M m (fun x => k))
  (at level 61, m at next level, right associativity) : js_scope.
Notation "m ;; k" := (bind_M m (fun _ => k))
  (at level 61, right associativity) : js_scope.
Open Scope js_scope.

Definition this : M Window := fun w => Done w w.

(** The window after it has done [es]. *)
Definition log (w : Window) (es : list effect) : Window :=
  {| config := config w; process := process w; callbacks := callbacks w;
     bindIndex := bindIndex w; trace := (trace w ++ es)%list |}.

Definition perform (e : effect) : M unit := fun w => Done tt (log w [e]).

(** *** Primitive operations of the language, as the source uses them *)

(** [v.k] for the keys the source reads ([type], [data], [id], [event]): none
    of them is a property of a primitive's or an array's prototype. *)
Definition get_prop (v : value) (k : string) : M value :=
  match v with
  | VUndefined | VNull => throw TypeError
  | VObject o => ret (obj_get o k)
  | VBool _ | VNumber _ _ | VString _ | VArray _ => ret VUndefined
  end.

(** [v == 'lit'] for the literals of the source, none of which spells a
    number: a string is compared by content, any other primitive differs;
    an array or an object would first be converted to a primitive, which is
    not modelled ([None]). *)
Definition loose_eq_lit (v : value) (lit : string) : option bool :=
  match v with
  | VString s => Some (String.eqb s lit)
  | VUndefined | VNull | VBool _ | VNumber _ _ => Some false
  | VArray _ | VObject _ => None
  end.

Definition loose_eq (v : value) (lit : string) : M bool :=
  match loose_eq_lit v lit with
  | Some b => ret b
  | None => unmodelled
  end.

(** ToString, as string concatenation applies it. *)
Definition to_string (v : value) : M string :=
  match v with
  | VString s => ret s
  | VUndefined => ret "undefined"
  | VNull => ret "null"
  | VBool b => ret (if b then "true" else "false")
  | VNumber m e =>
      match number_to_int m e with
      | Some z =>
          if (Z.abs z <? 10 ^ 21)%Z then ret (string_of_Z z) else unmodelled
      | None => unmodelled
      end
  | VArray _ | VObject _ => unmodelled
  end.

(** [JSON.parse(v)]: the argument is first converted to a string. *)
Definition JSON_parse_value (v : value) : M value :=
  match v with
  | VString s =>
      match JSON.JSON_parse s with
      | Some r => ret r
      | None => throw SyntaxError
      end
  | VUndefined => throw SyntaxError
  | VNull => ret VNull
  | VBool b => ret (VBool b)
  | VNumber _ _ | VArray _ | VObject _ => unmodelled
  end.

(** [a[i] = v] on an array: past the end the array grows, leaving holes. *)
Definition array_set {A} (a : list (option A)) (i : nat) (v : A)
  : list (option A) :=
  if (i <? length a)%nat then (firstn i a ++ Some v :: skipn (S i) a)%list
  else (a ++ repeat None (i - length a) ++ [Some v])%list.

(** [a[id]] where [id] came off the wire: a number that is a non-negative
    integer selects an element; any other number, [undefined], [null] and a
    boolean name no property of an array. *)
Definition array_get {A} (a : list (option A)) (id : value) : M (option A) :=
  match id with
  | VNumber m e =>
      match number_to_int m e with
      | Some z => if (z <? 0)%Z then ret None else ret (nth (Z.to_nat z) a None)
      | None => ret None
      end
  | VUndefined | VNull | VBool _ => ret None
  | VString _ | VArray _ | VObject _ => unmodelled
  end.

(** [...args] in a call. *)
Definition spread_args (args : value) : M (list value) :=
  match args with
  | VArray l => ret l
  | VString _ => unmodelled
  | VUndefined | VNull | VBool _ | VNumber _ _ | VObject _ => throw TypeError
  end.

(** *** Class fields and methods *)

Definition DEBUG : bool := true.

Definition EXE_PATH (dirname : string) : string :=
  dirname ++ "/../zig-out/bin/bunview".

Definition default_config : object :=
  [ ("height", VNumber 320 0); ("width", VNumber 480 0); ("title", VString "");
    ("url", VString "data:text/html,<html>Bunview</html>") ].

(** The object once the field initialisers have run. *)
Definition fields : Window :=
  {| config := default_config; process := None; callbacks := [];
     bindIndex := 0; trace := [] |}.

Definition set_config (c : object) : M unit :=
  fun w =>
    Done tt {| config := c; process := process w; callbacks := callbacks w;
               bindIndex := bindIndex w; trace := trace w |}.

Definition set_process (p : option Subprocess) : M unit :=
  fun w =>
    Done tt {| config := config w; process := p; callbacks := callbacks w;
               bindIndex := bindIndex w; trace := trace w |}.

Definition set_callbacks (c : list (option callable)) : M unit :=
  fun w =>
    Done tt {| config := config w; process := process w; callbacks := c;
               bindIndex := bindIndex w; trace := trace w |}.

Definition set_bindIndex (n : nat) : M unit :=
  fun w =>
    Done tt {| config := config w; process := process w;
               callbacks := callbacks w; bindIndex := n; trace := trace w |}.

(** [this.emit(name, ...args)]. *)
Definition emit (name : value) (args : list value) : M unit :=
  perform (Emit name args).

(** [this.process.kill()]. *)
Definition process_kill : M unit :=
  w <- this ;;
  match process w with
  | None => throw TypeError
  | Some p => set_process (Some {| cmd := cmd p; killed := true |}) ;;
              perform Kill
  end.

Definition createConfigArgs (config : object) : M (list string) :=
  h <- to_string (obj_get config "height") ;;
  w <- to_string (obj_get config "width") ;;
  t <- to_string (obj_get config "title") ;;
  u <- to_string (obj_get config "url") ;;
  ret [ "--height=" ++ h; "--width=" ++ w;
        "--title=" ++ String dq (t ++ String dq "");
        "--url=" ++ String dq (u ++ String dq "") ].

(** [display()], up to the start of the two read loops. *)
Definition display (dirname : string) : M unit :=
  w <- this ;;
  args <- createConfigArgs (config w) ;;
  let c := ([EXE_PATH dirname] ++ args)%list in
  perform (Spawn c) ;;
  set_process (Some {| cmd := c; killed := false |}).

Definition constructor (dirname : string) (config_arg : object) : M unit :=
  w <- this ;;
  set_config (spread config_arg (config w)) ;;
  display dirname.

(** [new Window(config)]. *)
Definition new_Window (dirname : string) (config_arg : object) : res unit :=
  constructor dirname config_arg fields.

Definition write (type data : string) : M unit :=
  w <- this ;;
  match process w with
  | None => throw TypeError
  | Some p =>
      if killed p then unmodelled
      else perform (StdinWrite (JSON.envelope_text type data))
  end.

Definition bind (name : string) (callback : callable) : M unit :=
  w <- this ;;
  set_callbacks (array_set (callbacks w) (bindIndex w) callback) ;;
  write "bind" (string_of_nat (bindIndex w) ++ ":" ++ name) ;;
  w' <- this ;;
  set_bindIndex (S (bindIndex w')).

Definition setTitle (title : string) : M unit := write "setTitle" title.

Definition MIN : Z := 1.
Definition MAX : Z := 2.
Definition FIXED : Z := 3.

Definition setSize (width height hint : Z) : M unit :=
  write "setSize"
    (string_of_Z width ++ ":" ++ string_of_Z height ++ ":" ++ string_of_Z hint).

Definition navigate (url : string) : M unit := write "navigate" url.
Definition eval (code : string) : M unit := write "eval" code.
Definition init (code : string) : M unit := write "init" code.

Definition destroy : M unit :=
  process_kill ;;
  emit (VString "close") [].

(** [ioHandlers.stdout(msg)] after [msg = JSON.parse(msg)].  In the call
    [this.#callbacks[id](...args)] a missing callee ends in a TypeError
    whatever [args] is: either the spread throws it or the call does. *)
Definition dispatch (msg : value) : M unit :=
  ty <- get_prop msg "type" ;;
  is_event <- loose_eq ty "event" ;;
  if is_event then
    data <- get_prop msg "data" ;;
    evt <- JSON_parse_value data ;;
    name <- get_prop evt "event" ;;
    is_close <- loose_eq name "close" ;;
    if is_close then
      process_kill ;;
      emit name []
    else
      payload <- get_prop evt "data" ;;
      if truthy payload then emit name [payload] else emit name []
  else
    is_internal <- loose_eq ty "internalEvent" ;;
    if is_internal then
      evt <- get_prop msg "data" ;;
      name <- get_prop evt "event" ;;
      payload <- get_prop evt "data" ;;
      emit name [payload]
    else
      is_callback <- loose_eq ty "bindCallback" ;;
      if is_callback then
        id <- get_prop msg "id" ;;
        args <- get_prop msg "data" ;;
        w <- this ;;
        callee <- array_get (callbacks w) id ;;
        match callee with
        | None => throw TypeError
        | Some f => l <- spread_args args ;; perform (Invoke f l)
        end
      else ret tt.

Definition stdout (msg : string) : M unit :=
  match JSON.JSON_parse msg with
  | None => throw SyntaxError
  | Some m => dispatch m
  end.

Definition stderr (msg : string) : M unit :=
  if DEBUG then perform (ConsoleLog ("(debug) " ++ msg)) else ret tt.


Fixpoint stderr_loop (chunks : list string) : M unit :=
  match chunks with
  | [] => ret tt
  | c :: rest => stderr c ;; stderr_loop rest
  end.


(** *** Subscribers (the [events] module)

    [emit(name, ...args)] calls every subscriber of [name], in the order of
    subscription, with [args]. *)
Definition subscriptions := list (string * callable).

Definition listener_calls (subs : subscriptions) (name : string)
  (args : list value) : list (callable * list value) :=
  map (fun s => (snd s, args))
      (filter (fun s => String.eqb (fst s) name) subs).

Definition subscriber_calls (subs : subscriptions) (t : list effect)
  : list (callable * list value) :=
  flat_map (fun e => match e with
                     | Emit (VString n) args => listener_calls subs n args
                     | _ => []
                     end) t.

(** *** The registry and its identifiers *)


(** The registry holds exactly the identifiers issued so far, and the
    process has been spawned. *)
Definition registry_ok (w : Window) : Prop :=
  length (callbacks w) = bindIndex w /\ process w <> None.

(** The process has been spawned and not killed. *)
Definition alive (w : Window) : Prop :=
  exists p, process w = Some p /\ killed p = false.

(** The window after one more [bind]. *)
Definition bound (w : Window) (name : string) (f : callable) : Window :=
  {| config := config w; process := process w;
     callbacks := (callbacks w ++ [Some f])%list;
     bindIndex := S (bindIndex w);
     trace := (trace w
               ++ [StdinWrite (JSON.envelope_text "bind"
                                 (string_of_nat (bindIndex w) ++ ":" ++ name))])%list |}.

(** The window after [process.kill()]. *)
Definition terminated (w : Window) : Window :=
  {| config := config w;
     process := match process w with
                | Some p => Some {| cmd := cmd p; killed := true |}
                | None => None
                end;
     callbacks := callbacks w; bindIndex := bindIndex w;
     trace := (trace w ++ [Kill])%list |}.

(** *** The window every construction yields *)

Definition default_args : list string :=
  [ "--height=320"; "--width=480";
    "--title=" ++ String dq (String dq "");
    "--url=" ++ String dq ("data:text/html,<html>Bunview</html>" ++ String dq "") ].

Definition constructed (dirname : string) (c : object) : Window :=
  {| config := spread c default_config;
     process := Some {| cmd := EXE_PATH dirname :: default_args;
                        killed := false |};
     callbacks := []; bindIndex := 0;
     trace := [Spawn (EXE_PATH dirname :: default_args)] |}.

(** *** Sequences of calls *)

(** [bind(name_1, f_1); ...; bind(name_n, f_n)]. *)
Fixpoint bind_all (binds : list (string * callable)) : M unit :=
  match binds with
  | [] => ret tt
  | (name, f) :: rest => bind name f ;; bind_all rest
  end.

(** The identifier each of these calls assigns: the index it stores its
    callback at and names in its [bind] command. *)
Fixpoint bind_ids (binds : list (string * callable)) (w : Window) : list nat :=
  match binds with
  | [] => []
  | (name, f) :: rest =>
      bindIndex w ::
      match bind name f w with
      | Done _ w' => bind_ids rest w'
      | _ => []
      end
  end.

(** The [bind] commands these calls write, the first with identifier [i]. *)
Fixpoint bind_writes (i : nat) (binds : list (string * callable))
  : list effect :=
  match binds with
  | [] => []
  | (name, _) :: rest =>
      StdinWrite (JSON.envelope_text "bind" (string_of_nat i ++ ":" ++ name))
      :: bind_writes (S i) rest
  end.

(** *** The life of a window *)

(** What can happen to a window once it is constructed: the application
    calls a method, or a chunk arrives on one of the two streams. *)
Inductive call : Type :=
| CallBind (name : string) (f : callable)
| CallSetTitle (title : string)
| CallSetSize (width height hint : Z)
| CallNavigate (url : string)
| CallEval (code : string)
| CallInit (code : string)
| CallDestroy
| ChunkStdout (chunk : string)
| ChunkStderr (chunk : string).

Definition run (c : call) : M unit :=
  match c with
  | CallBind name f => bind name f
  | CallSetTitle title => setTitle title
  | CallSetSize width height hint => setSize width height hint
  | CallNavigate url => navigate url
  | CallEval code => eval code
  | CallInit code => init code
  | CallDestroy => destroy
  | ChunkStdout chunk => stdout chunk
  | ChunkStderr chunk => stderr chunk
  end.

(** [later w0 w]: the window [w0] has become [w] through some calls, each of
    which returned or threw. *)
Inductive later (w0 : Window) : Window -> Prop :=
| later_now : later w0 w0
| later_done w call w' :
    later w0 w -> run call w = Done tt w' -> later w0 w'
| later_raise w call e w' :
    later w0 w -> run call w = Raise e w' -> later w0 w'.

(** The windows a program can see: what a constructed window becomes. *)
Definition reachable (w : Window) : Prop :=
  exists dirname c, later (constructed dirname c) w.

(** [m] leaves the registry as it is and does not lose the process. *)
Definition same_registry (w w' : Window) : Prop :=
  callbacks w' = callbacks w /\ bindIndex w' = bindIndex w
  /\ (process w <> None -> process w' <> None).

Definition keeps {A} (m : M A) : Prop :=
  forall w,
    match m w with
    | Done _ w' | Raise _ w' => same_registry w w'
    | Unmodelled => True
    end.

(** *** The decoder as the specification words it

    The text is split on newline; every complete line is decoded as one
    envelope; the text after the last newline is kept for the next chunk. *)
Fixpoint segments (s : string) : list string :=
  match s with
  | EmptyString => [""]
  | String c r =>
      match segments r with
      | first :: others =>
          if Ascii.eqb c newline then "" :: first :: others
          else String c first :: others
      | [] => []
      end
  end.

Definition complete_lines (stream : string) : list string :=
  removelast (segments stream).

Definition pending (stream : string) : string := last (segments stream) "".

Fixpoint parse_all (lines : list string) : option (list value) :=
  match lines with
  | [] => Some []
  | l :: rest =>
      match JSON.JSON_parse l, parse_all rest with
      | Some v, Some vs => Some (v :: vs)
      | _, _ => None
      end
  end.

Definition line_decoder (stream : string) : option (list value) :=
  parse_all (complete_lines stream).

Fixpoint no_newline (s : string) : bool :=
  match s with
  | EmptyString => true
  | String c r => negb (Ascii.eqb c newline) && no_newline r
  end.

(** A line: its text and the newline that ends it. *)
Definition line (body : string) : string := body ++ String newline "".


(** *** Sample inputs *)

Module Samples.

(** A window constructed with no configuration of the caller's. *)
Definition fresh : Window := constructed "/app/lib" [].

Definition ready_text : string :=
  q "{'type':'internalEvent','data':{'event':'ready','data':null}}".

Definition ready_line : string := line ready_text.

Definition ready_envelope : value :=
  VObject [ ("type", VString "internalEvent");
            ("data", VObject [("event", VString "ready"); ("data", VNull)]) ].

Definition close_text : string :=
  q "{'type':'event','data':'{\'event\':\'close\'}'}".

Definition add_text : string := q "{'type':'bindCallback','id':0,'data':[2,3]}".

Definition add_envelope (id : Z) : object :=
  [ ("type", VString "bindCallback"); ("id", VNumber id 0);
    ("data", VArray [VNumber 2 0; VNumber 3 0]) ].




End Samples.



(** *** What a call may do *)

Definition is_object (v : value) : bool :=
  match v with
  | VObject _ => true
  | _ => false
  end.

(** The values a call cannot spread: every primitive but a string, and a
    plain object. *)
Definition not_iterable (v : value) : bool :=
  match v with
  | VUndefined | VNull | VBool _ | VNumber _ _ | VObject _ => true
  | VString _ | VArray _ => false
  end.

(** The effects of the inbound side: a kill, an emission, a callback. *)
Definition inbound_effect (e : effect) : Prop :=
  match e with
  | Kill | Emit _ _ | Invoke _ _ => True
  | Spawn _ | StdinWrite _ | ConsoleLog _ => False
  end.

Definition is_write (e : effect) : Prop :=
  match e with
  | StdinWrite _ => True
  | _ => False
  end.

Definition not_spawn (e : effect) : Prop :=
  match e with
  | Spawn _ => False
  | _ => True
  end.

(** [w] has become [w'] by effects that all satisfy [P]; the configuration
    and the command of the process are the same, and a killed process is
    still killed. *)
Definition steady (P : effect -> Prop) (w w' : Window) : Prop :=
  (exists es, trace w' = (trace w ++ es)%list /\ Forall P es)
  /\ config w' = config w
  /\ option_map cmd (process w') = option_map cmd (process w)
  /\ (forall p, process w = Some p -> killed p = true ->
      exists p', process w' = Some p' /\ killed p' = true).

Definition within {A} (P : effect -> Prop) (m : M A) : Prop :=
  forall w,
    match m w with
    | Done _ w' | Raise _ w' => steady P w w'
    | Unmodelled => True
    end.


(** The command methods that only write. *)
Inductive command : Type :=
| SetTitle (title : string)
| Navigate (url : string)
| Eval (code : string)
| Init (code : string).

Definition command_type (c : command) : string :=
  match c with
  | SetTitle _ => "setTitle"
  | Navigate _ => "navigate"
  | Eval _ => "eval"
  | Init _ => "init"
  end.

Definition command_data (c : command) : string :=
  match c with
  | SetTitle s | Navigate s | Eval s | Init s => s
  end.

Definition send (c : command) : M unit :=
  match c with
  | SetTitle s => setTitle s
  | Navigate s => navigate s
  | Eval s => eval s
  | Init s => init s
  end.

(** The record [{type, data}] as [JSON.parse] returns it. *)
Definition record (type data : string) : value :=
  VObject [("type", VString type); ("data", VString data)].

Fixpoint no_colon (s : string) : bool :=
  match s with
  | EmptyString => true
  | String c r => negb (Ascii.eqb c ":"%char) && no_colon r
  end.


(** * Properties *)

(** ** Text *)

Lemma append_assoc (a b c : string) : (a ++ b) ++ c = a ++ (b ++ c).
Proof. induction a as [|x a IH]; simpl; [reflexivity | now rewrite IH]. Qed.

Lemma append_nil_r (a : string) : a ++ "" = a.
Proof. induction a as [|x a IH]; simpl; [reflexivity | now rewrite IH]. Qed.

Lemma length_append (a b : string) :
  String.length (a ++ b) = String.length a + String.length b.
Proof. induction a as [|x a IH]; simpl; [reflexivity | now rewrite IH]. Qed.

(** ** The codec *)

Module Codec.
Import JSON.

(** Reading back one quoted character gives the character. *)
Lemma parse_quote_char (c : ascii) (t : string) :
  parse_string_body (quote_char c ++ t)
  = prepend (String c "") (parse_string_body t).
Proof. destruct c as [[] [] [] [] [] [] [] []]; reflexivity. Qed.

Lemma parse_quote_body (s rest : string) :
  parse_string_body (quote_body s ++ String dq rest) = Some (s, rest).
Proof.
  induction s as [|c s IH]; simpl.
  - reflexivity.
  - rewrite append_assoc, parse_quote_char, IH. reflexivity.
Qed.

Lemma quote_app (s rest : string) :
  quote s ++ rest = String dq (quote_body s ++ String dq rest).
Proof. unfold quote. cbn [append]. now rewrite append_assoc. Qed.

(** A quoted string is read back as a string value, whatever follows. *)
Lemma parse_value_quote (f : nat) (s rest : string) :
  parse_value (S f) (quote s ++ rest) = Some (VString s, rest).
Proof.
  rewrite quote_app. cbn [parse_value skip_ws].
  change (is_ws dq) with false. cbn iota.
  change (Ascii.eqb dq dq) with true. cbn iota.
  now rewrite (parse_quote_body s rest).
Qed.

(** One member whose value is a string, followed by [c]. *)
Lemma parse_members_string (f : nat) (key s : string) (c : ascii)
  (rest : string) (acc : object) :
  is_ws c = false ->
  parse_members (S (S f))
    (quote key ++ String ":" (quote s ++ String c rest)) acc
  = if Ascii.eqb c ","%char
    then parse_members (S f) rest (obj_set acc key (VString s))
    else if Ascii.eqb c "}"%char
         then Some (VObject (obj_set acc key (VString s)), rest)
         else None.
Proof.
  intros Hc. rewrite quote_app.
  cbn [parse_members skip_ws].
  change (is_ws dq) with false. cbn iota.
  change (Ascii.eqb dq dq) with true. cbn iota.
  rewrite (parse_quote_body key). cbn [append skip_ws].
  change (is_ws ":") with false. cbn iota.
  change (Ascii.eqb ":" ":") with true. cbn iota.
  rewrite parse_value_quote. cbn [skip_ws]. rewrite Hc. reflexivity.
Qed.

Lemma parse_value_msg (f : nat) (type data rest : string) :
  parse_value (S (S (S (S f)))) (JSON_stringify_msg type data ++ rest)
  = Some (VObject [("type", VString type); ("data", VString data)], rest).
Proof.
  unfold JSON_stringify_msg. rewrite !append_assoc.
  cbn [append parse_value skip_ws].
  change (is_ws "{") with false. cbn iota.
  change (Ascii.eqb "{" dq) with false.
  change (Ascii.eqb "{" "[") with false.
  change (Ascii.eqb "{" "{") with true. cbn iota.
  rewrite quote_app. cbn [skip_ws].
  change (is_ws dq) with false. cbn iota.
  change (Ascii.eqb dq "}") with false. cbn iota.
  rewrite <- quote_app.
  rewrite (parse_members_string (S f) "type" type ","%char) by reflexivity.
  change (Ascii.eqb "," ",") with true. cbn iota.
  rewrite (parse_members_string f "data" data "}"%char) by reflexivity.
  reflexivity.
Qed.

(** The text [JSON.parse] reads is never short of fuel for one envelope. *)
Lemma fuel_msg (type data rest : string) :
  exists f, 2 * String.length (JSON_stringify_msg type data ++ rest)
            = S (S (S f)).
Proof.
  unfold JSON_stringify_msg, quote. cbn [append String.length].
  eexists. rewrite !Nat.mul_succ_r, !Nat.add_succ_r. reflexivity.
Qed.

(** C6. For every command type and every string [data], decoding the line
    that [write] sends gives back the record with exactly the fields
    [type] and [data]. *)
Theorem C6_codec_round_trip (type data : string) :
  JSON_parse (envelope_text type data)
  = Some (VObject [("type", VString type); ("data", VString data)]).
Proof.
  unfold JSON_parse, envelope_text.
  destruct (fuel_msg type data (String newline "")) as [f Hf].
  rewrite Hf, parse_value_msg. reflexivity.
Qed.

End Codec.

(** ** The parser and the text that follows a value *)

Module ParserFacts.
Import JSON.




Lemma prepend_some (p : string) (r : option (string * string))
  (s rest : string) :
  prepend p r = Some (s, rest) ->
  exists s', r = Some (s', rest) /\ s = p ++ s'.
Proof.
  destruct r as [[s' rest']|]; [|discriminate]. cbn.
  intros H. injection H as <- <-. now exists s'.
Qed.

(** The escape of a high surrogate, read through [low_surrogate]. *)
Lemma parse_high (h1 h2 h3 h4 : ascii) (r5 : string) (hi : N) :
  hex4 h1 h2 h3 h4 = Some hi -> is_high hi = true ->
  parse_string_body
    (String backslash (String "u" (String h1 (String h2 (String h3
       (String h4 r5))))))
  = match low_surrogate r5 with
    | Some (lo, r11) =>
        prepend (utf8 (65536 + (hi - 55296) * 1024 + (lo - 56320))%N)
          (parse_string_body r11)
    | None => prepend (utf8 hi) (parse_string_body r5)
    end.
Proof.
  intros Hh Hi. cbn [parse_string_body].
  change (Ascii.eqb backslash dq) with false.
  change (Ascii.eqb backslash backslash) with true.
  change (Ascii.eqb "u" "u") with true. cbv iota.
  rewrite Hh, Hi. unfold low_surrogate.
  destruct r5 as [|b [|u [|l1 [|l2 [|l3 [|l4 r11]]]]]]; try reflexivity.
  destruct (Ascii.eqb b backslash && Ascii.eqb u "u"); [|reflexivity].
  destruct (hex4 l1 l2 l3 l4) as [lo|]; [|reflexivity].
  destruct (is_low lo); reflexivity.
Qed.





Section Follow.

(** The text that follows starts with a white-space character. *)
Variables (c0 : ascii) (t0 : string).
Hypothesis c0_ws : is_ws c0 = true.
Let t : string := String c0 t0.









End Follow.

End ParserFacts.

(** ** The fuel of the parser *)

Module Fuel.
Import JSON ParserFacts.

Lemma skip_ws_length (s : string) (c : ascii) (r : string) :
  skip_ws s = String c r -> String.length r < String.length s.
Proof.
  induction s as [|a s IH]; cbn [skip_ws String.length]; [discriminate|].
  destruct (is_ws a).
  - intros H. specialize (IH H). lia.
  - intros H. injection H as _ <-. lia.
Qed.

Lemma expect_length (w x rest : string) :
  expect w x = Some rest -> String.length rest <= String.length x.
Proof.
  revert x. induction w as [|c w IH]; intros x; cbn [expect].
  - intros H. injection H as <-. lia.
  - destruct x as [|c' x]; [discriminate|].
    destruct (Ascii.eqb c c'); [|discriminate].
    intros H. specialize (IH _ H). cbn [String.length]. lia.
Qed.

Lemma digits_length (x : string) (acc : Z) (n : nat) :
  String.length (snd (digits x acc n)) <= String.length x.
Proof.
  revert acc n. induction x as [|c x IH]; intros acc n; cbn [digits].
  - cbn. lia.
  - destruct (digit_val c); [|cbn; lia].
    specialize (IH (acc * 10 + z)%Z (S n)). cbn [String.length]. lia.
Qed.

Lemma low_surrogate_length (s : string) (lo : N) (r11 : string) :
  low_surrogate s = Some (lo, r11) -> String.length r11 < String.length s.
Proof.
  unfold low_surrogate.
  destruct s as [|b [|u [|l1 [|l2 [|l3 [|l4 r]]]]]]; try discriminate.
  destruct (if Ascii.eqb b backslash && Ascii.eqb u "u"
            then hex4 l1 l2 l3 l4 else None) as [lo'|]; [|discriminate].
  destruct (is_low lo'); [|discriminate].
  intros H. injection H as _ <-. cbn [String.length]. lia.
Qed.

Lemma parse_string_body_length (n : nat) :
  forall x s rest,
    String.length x <= n ->
    parse_string_body x = Some (s, rest) ->
    String.length rest < String.length x.
Proof.
  induction n as [|n IH]; intros x s rest Hlen H.
  - destruct x; [discriminate|cbn in Hlen; lia].
  - destruct x as [|c r]; [discriminate|].
    cbn [parse_string_body] in H. cbn [String.length] in *.
    destruct (Ascii.eqb c dq).
    { injection H as _ <-. lia. }
    destruct (Ascii.eqb c backslash) eqn:Hc.
    + destruct r as [|x1 r1]; [discriminate|].
      destruct (Ascii.eqb x1 "u") eqn:Hx1.
      * destruct r1 as [|h1 [|h2 [|h3 [|h4 r5]]]]; try discriminate.
        destruct (hex4 h1 h2 h3 h4) as [hi|] eqn:Hh; [|discriminate].
        cbn [String.length] in *.
        destruct (is_high hi) eqn:Hhi.
        -- pose proof (parse_high h1 h2 h3 h4 r5 hi Hh Hhi) as E1.
           cbn [parse_string_body] in E1.
           change (Ascii.eqb backslash dq) with false in E1.
           change (Ascii.eqb backslash backslash) with true in E1.
           change (Ascii.eqb "u" "u") with true in E1. cbv iota in E1.
           rewrite Hh, Hhi in E1. rewrite E1 in H. clear E1.
           destruct (low_surrogate r5) as [[lo r11]|] eqn:Hlp.
           ++ apply low_surrogate_length in Hlp.
              apply prepend_some in H. destruct H as (s' & Hs' & _).
              apply IH in Hs'; lia.
           ++ apply prepend_some in H. destruct H as (s' & Hs' & _).
              apply IH in Hs'; lia.
        -- apply prepend_some in H. destruct H as (s' & Hs' & _).
           apply IH in Hs'; lia.
      * destruct (if Ascii.eqb x1 dq then Some dq
                  else if Ascii.eqb x1 backslash then Some backslash
                  else if Ascii.eqb x1 "/" then Some "/"%char
                  else if Ascii.eqb x1 "b" then Some "008"%char
                  else if Ascii.eqb x1 "f" then Some "012"%char
                  else if Ascii.eqb x1 "n" then Some "010"%char
                  else if Ascii.eqb x1 "r" then Some "013"%char
                  else if Ascii.eqb x1 "t" then Some "009"%char
                  else None) as [y|]; [|discriminate].
        apply prepend_some in H. destruct H as (s' & Hs' & _).
        cbn [String.length] in *. apply IH in Hs'; lia.
    + destruct (code c <? 32)%N; [discriminate|].
      apply prepend_some in H. destruct H as (s' & Hs' & _).
      apply IH in Hs'; lia.
Qed.

Lemma int_part_length (x : string) (i : Z) (rest : string) :
  int_part x = Some (i, rest) -> String.length rest < String.length x.
Proof.
  destruct x as [|c x]; [discriminate|]. unfold int_part.
  destruct (digit_val c) as [[|d|d]|] eqn:Hc; try discriminate.
  - intros H. injection H as _ <-. cbn. lia.
  - pose proof (digits_length (String c x) 0 0) as L.
    cbn [digits] in *. rewrite Hc in *.
    pose proof (digits_length x (0 * 10 + Z.pos d) 1) as L'.
    destruct (digits x (0 * 10 + Z.pos d) 1) as [[a k] r].
    intros H. injection H as _ <-. cbn [snd String.length] in *. lia.
  - pose proof (digits_length x (0 * 10 + Z.neg d) 1) as L'.
    cbn [digits]. rewrite Hc.
    destruct (digits x (0 * 10 + Z.neg d) 1) as [[a k] r].
    intros H. injection H as _ <-. cbn [snd String.length] in *. lia.
Qed.

Lemma frac_part_length (m : Z) (x : string) (m' e : Z) (rest : string) :
  frac_part m x = Some (m', e, rest) -> String.length rest <= String.length x.
Proof.
  destruct x as [|c x]; unfold frac_part.
  - intros H. injection H as _ _ <-. lia.
  - destruct (Ascii.eqb c ".").
    + pose proof (digits_length x m 0) as L.
      destruct (digits x m 0) as [[a k] r]. destruct k; [discriminate|].
      intros H. injection H as _ _ <-. cbn [snd String.length] in *. lia.
    + intros H. injection H as _ _ <-. lia.
Qed.

Lemma exp_part_length (x : string) (e : Z) (rest : string) :
  exp_part x = Some (e, rest) -> String.length rest <= String.length x.
Proof.
  destruct x as [|c x]; unfold exp_part.
  - intros H. injection H as _ <-. lia.
  - destruct (Ascii.eqb c "e" || Ascii.eqb c "E").
    + destruct x as [|sg x]; [cbn [digits]; discriminate|].
      destruct (Ascii.eqb sg "-"); [|destruct (Ascii.eqb sg "+")].
      * pose proof (digits_length x 0 0) as L.
        destruct (digits x 0 0) as [[a k] r]. destruct k; [discriminate|].
        intros H. injection H as _ <-. cbn [snd String.length] in *. lia.
      * pose proof (digits_length x 0 0) as L.
        destruct (digits x 0 0) as [[a k] r]. destruct k; [discriminate|].
        intros H. injection H as _ <-. cbn [snd String.length] in *. lia.
      * pose proof (digits_length (String sg x) 0 0) as L.
        destruct (digits (String sg x) 0 0) as [[a k] r].
        destruct k; [discriminate|].
        intros H. injection H as _ <-. cbn [snd String.length] in *. lia.
    + intros H. injection H as _ <-. lia.
Qed.

Lemma parse_number_length (x : string) (v : value) (rest : string) :
  parse_number x = Some (v, rest) -> String.length rest < String.length x.
Proof.
  unfold parse_number.
  assert (Hs : String.length
                 (snd (match x with
                       | String c r =>
                           if Ascii.eqb c "-"%char then (true, r) else (false, x)
                       | EmptyString => (false, x)
                       end)) <= String.length x).
  { destruct x as [|c r]; [cbn; lia|].
    destruct (Ascii.eqb c "-"); cbn; lia. }
  destruct (match x with
            | String c r => if Ascii.eqb c "-"%char then (true, r) else (false, x)
            | EmptyString => (false, x)
            end) as [neg s1]. cbn [snd] in Hs.
  destruct (int_part s1) as [[i s2]|] eqn:Hi; [|discriminate].
  apply int_part_length in Hi.
  destruct (frac_part i s2) as [[[m e] s3]|] eqn:Hf; [|discriminate].
  apply frac_part_length in Hf.
  destruct (exp_part s3) as [[ex s4]|] eqn:He; [|discriminate].
  apply exp_part_length in He.
  intros H. injection H as _ <-. lia.
Qed.

(** Whatever some fuel reads, the fuel of [JSON_parse] reads as well: a
    value takes at least one character, and each level of nesting costs two
    units of fuel for at least one character. *)
Lemma parse_enough (fuel : nat) :
  (forall s v rest,
      parse_value fuel s = Some (v, rest) ->
      String.length rest < String.length s
      /\ forall n, 2 * String.length s < n ->
                   parse_value n s = Some (v, rest))
  /\ (forall s acc v rest,
         parse_elements fuel s acc = Some (v, rest) ->
         String.length rest < String.length s
         /\ forall n, 2 * String.length s + 1 < n ->
                      parse_elements n s acc = Some (v, rest))
  /\ (forall s acc v rest,
         parse_members fuel s acc = Some (v, rest) ->
         String.length rest < String.length s
         /\ forall n, 2 * String.length s + 1 < n ->
                      parse_members n s acc = Some (v, rest)).
Proof.
  induction fuel as [|f (IHv & IHe & IHm)];
    [repeat split; intros; discriminate|].
  split; [|split].
  - intros s v rest. cbn [parse_value].
    destruct (skip_ws s) as [|c r] eqn:Hs; [discriminate|].
    pose proof (skip_ws_length _ _ _ Hs) as Ls.
    destruct (Ascii.eqb c dq) eqn:E1.
    { destruct (parse_string_body r) as [[str r']|] eqn:Hb; [|discriminate].
      pose proof (parse_string_body_length _ _ _ _ (le_n _) Hb) as Lb.
      intros H. injection H as <- <-. split; [lia|].
      intros [|n'] Hn; [lia|]. cbn [parse_value].
      now rewrite Hs, E1, Hb. }
    destruct (Ascii.eqb c "[") eqn:E2.
    { destruct (skip_ws r) as [|c' r'] eqn:Hr; [discriminate|].
      pose proof (skip_ws_length _ _ _ Hr) as Lr.
      destruct (Ascii.eqb c' "]") eqn:E3.
      - intros H. injection H as <- <-. split; [lia|].
        intros [|n'] Hn; [lia|]. cbn [parse_value].
        now rewrite Hs, E1, E2, Hr, E3.
      - intros H. destruct (IHe _ _ _ _ H) as [L K]. split; [lia|].
        intros [|n'] Hn; [lia|]. cbn [parse_value].
        rewrite Hs, E1, E2, Hr, E3. apply K. lia. }
    destruct (Ascii.eqb c "{") eqn:E3.
    { destruct (skip_ws r) as [|c' r'] eqn:Hr; [discriminate|].
      pose proof (skip_ws_length _ _ _ Hr) as Lr.
      destruct (Ascii.eqb c' "}") eqn:E4.
      - intros H. injection H as <- <-. split; [lia|].
        intros [|n'] Hn; [lia|]. cbn [parse_value].
        now rewrite Hs, E1, E2, E3, Hr, E4.
      - intros H. destruct (IHm _ _ _ _ H) as [L K]. split; [lia|].
        intros [|n'] Hn; [lia|]. cbn [parse_value].
        rewrite Hs, E1, E2, E3, Hr, E4. apply K. lia. }
    destruct (Ascii.eqb c "n") eqn:E4.
    { destruct (expect "ull" r) as [r'|] eqn:He; [|discriminate].
      pose proof (expect_length _ _ _ He) as Le.
      intros H. injection H as <- <-. split; [lia|].
      intros [|n'] Hn; [lia|]. cbn [parse_value].
      now rewrite Hs, E1, E2, E3, E4, He. }
    destruct (Ascii.eqb c "t") eqn:E5.
    { destruct (expect "rue" r) as [r'|] eqn:He; [|discriminate].
      pose proof (expect_length _ _ _ He) as Le.
      intros H. injection H as <- <-. split; [lia|].
      intros [|n'] Hn; [lia|]. cbn [parse_value].
      now rewrite Hs, E1, E2, E3, E4, E5, He. }
    destruct (Ascii.eqb c "f") eqn:E6.
    { destruct (expect "alse" r) as [r'|] eqn:He; [|discriminate].
      pose proof (expect_length _ _ _ He) as Le.
      intros H. injection H as <- <-. split; [lia|].
      intros [|n'] Hn; [lia|]. cbn [parse_value].
      now rewrite Hs, E1, E2, E3, E4, E5, E6, He. }
    intros H. pose proof (parse_number_length _ _ _ H) as Ln.
    cbn [String.length] in Ln. split; [lia|].
    intros [|n'] Hn; [lia|]. cbn [parse_value].
    now rewrite Hs, E1, E2, E3, E4, E5, E6.
  - intros s acc v rest. cbn [parse_elements].
    destruct (parse_value f s) as [[v1 r1]|] eqn:Hv; [|discriminate].
    destruct (IHv _ _ _ Hv) as [Lv Kv].
    destruct (skip_ws r1) as [|c r] eqn:Hr; [discriminate|].
    pose proof (skip_ws_length _ _ _ Hr) as Lr.
    destruct (Ascii.eqb c ",") eqn:E1.
    + intros H. destruct (IHe _ _ _ _ H) as [L K]. split; [lia|].
      intros [|n'] Hn; [lia|]. cbn [parse_elements].
      rewrite (Kv n') by lia. rewrite Hr, E1. apply K. lia.
    + destruct (Ascii.eqb c "]") eqn:E2; [|discriminate].
      intros H. injection H as <- <-. split; [lia|].
      intros [|n'] Hn; [lia|]. cbn [parse_elements].
      rewrite (Kv n') by lia. now rewrite Hr, E1, E2.
  - intros s acc v rest. cbn [parse_members].
    destruct (skip_ws s) as [|c r] eqn:Hs; [discriminate|].
    pose proof (skip_ws_length _ _ _ Hs) as Ls.
    destruct (Ascii.eqb c dq) eqn:E1; [|discriminate].
    destruct (parse_string_body r) as [[key r1]|] eqn:Hb; [|discriminate].
    pose proof (parse_string_body_length _ _ _ _ (le_n _) Hb) as Lb.
    destruct (skip_ws r1) as [|c1 r2] eqn:Hr1; [discriminate|].
    pose proof (skip_ws_length _ _ _ Hr1) as Lr1.
    destruct (Ascii.eqb c1 ":") eqn:E2; [|discriminate].
    destruct (parse_value f r2) as [[v1 r3]|] eqn:Hv; [|discriminate].
    destruct (IHv _ _ _ Hv) as [Lv Kv].
    destruct (skip_ws r3) as [|c2 r4] eqn:Hr3; [discriminate|].
    pose proof (skip_ws_length _ _ _ Hr3) as Lr3.
    destruct (Ascii.eqb c2 ",") eqn:E3.
    + intros H. destruct (IHm _ _ _ _ H) as [L K]. split; [lia|].
      intros [|n'] Hn; [lia|]. cbn [parse_members].
      rewrite Hs, E1, Hb, Hr1, E2. rewrite (Kv n') by lia.
      rewrite Hr3, E3. apply K. lia.
    + destruct (Ascii.eqb c2 "}") eqn:E4; [|discriminate].
      intros H. injection H as <- <-. split; [lia|].
      intros [|n'] Hn; [lia|]. cbn [parse_members].
      rewrite Hs, E1, Hb, Hr1, E2. rewrite (Kv n') by lia.
      now rewrite Hr3, E3, E4.
Qed.

(** [JSON_parse] never fails for want of fuel: when it throws, no fuel at
    all reads the text as one value followed by white space only. *)
Theorem JSON_parse_fuel_enough (text : string) (n : nat) (v : value)
  (rest : string) :
  parse_value n text = Some (v, rest) -> skip_ws rest = "" ->
  JSON_parse text = Some v.
Proof.
  intros H Hrest. unfold JSON_parse.
  rewrite (proj2 (proj1 (parse_enough n) _ _ _ H)) by lia.
  now rewrite Hrest.
Qed.

Corollary JSON_parse_throws_any_fuel (text : string) (n : nat) (v : value)
  (rest : string) :
  JSON_parse text = None ->
  parse_value n text = Some (v, rest) -> skip_ws rest <> "".
Proof.
  intros Hnone H Hrest.
  rewrite (JSON_parse_fuel_enough _ _ _ _ H Hrest) in Hnone. discriminate.
Qed.


End Fuel.

(** ** Objects and the constructor *)

Module Construction.

Lemma obj_get_set (o : object) (k k' : string) (v : value) :
  obj_get (obj_set o k v) k' = if String.eqb k k' then v else obj_get o k'.
Proof.
  induction o as [|[k0 v0] o IH]; simpl.
  - reflexivity.
  - destruct (String.eqb k0 k) eqn:E0; simpl.
    + apply String.eqb_eq in E0. subst k0.
      destruct (String.eqb k k'); reflexivity.
    + rewrite IH. destruct (String.eqb k0 k') eqn:E1; [|reflexivity].
      apply String.eqb_eq in E1. subst k0.
      now rewrite String.eqb_sym, E0.
Qed.

(** Spreading the defaults last gives every default field its default
    value, whatever was spread before. *)
Lemma spread_defaults_last (c : object) (k : string) :
  obj_has default_config k = true ->
  obj_get (spread c default_config) k = obj_get default_config k.
Proof.
  intros H. unfold spread, assign_all at 1, default_config.
  cbn [fold_left fst snd]. rewrite !obj_get_set.
  cbn [default_config obj_has obj_get] in *.
  destruct (String.eqb "height" k) eqn:E1;
    [apply String.eqb_eq in E1; subst k; reflexivity|].
  destruct (String.eqb "width" k) eqn:E2;
    [apply String.eqb_eq in E2; subst k; reflexivity|].
  destruct (String.eqb "title" k) eqn:E3;
    [apply String.eqb_eq in E3; subst k; reflexivity|].
  destruct (String.eqb "url" k) eqn:E4;
    [apply String.eqb_eq in E4; subst k; reflexivity|].
  discriminate H.
Qed.

Lemma new_Window_constructed (dirname : string) (c : object) :
  new_Window dirname c = Done tt (constructed dirname c).
Proof.
  unfold new_Window, constructor, display, createConfigArgs, bind_M, this,
    set_config, set_process, perform, log, fields.
  cbn [config process callbacks bindIndex trace].
  rewrite !spread_defaults_last by reflexivity.
  reflexivity.
Qed.

(** C1. Constructing with [{width:800, height:600, title:"T"}] spawns the
    process with the default flags, height 320, width 480 and an empty
    title, and the default URL: the merge spreads the defaults last, so
    the caller's fields are dropped. *)
Theorem C1_defaults_override_caller (dirname : string) :
  new_Window dirname
    [("width", VNumber 800 0); ("height", VNumber 600 0); ("title", VString "T")]
  = Done tt
      {| config := [ ("width", VNumber 480 0); ("height", VNumber 320 0);
                     ("title", VString "");
                     ("url", VString "data:text/html,<html>Bunview</html>") ];
         process := Some {| cmd := [ EXE_PATH dirname; "--height=320";
                                     "--width=480";
                                     "--title=" ++ String dq (String dq "");
                                     "--url=" ++ String dq
                                       ("data:text/html,<html>Bunview</html>"
                                          ++ String dq "") ];
                            killed := false |};
         callbacks := []; bindIndex := 0;
         trace := [ Spawn [ EXE_PATH dirname; "--height=320"; "--width=480";
                            "--title=" ++ String dq (String dq "");
                            "--url=" ++ String dq
                              ("data:text/html,<html>Bunview</html>"
                                 ++ String dq "") ] ] |}.
Proof. rewrite new_Window_constructed. reflexivity. Qed.

End Construction.

(** ** The callback registry *)

Module Registry.
Import Construction.
Local Open Scope list_scope.

Lemma array_set_end {A} (a : list (option A)) (v : A) :
  array_set a (length a) v = a ++ [Some v].
Proof.
  unfold array_set. now rewrite Nat.ltb_irrefl, Nat.sub_diag.
Qed.

Lemma constructed_ok (dirname : string) (c : object) :
  registry_ok (constructed dirname c).
Proof. split; [reflexivity | discriminate]. Qed.

Lemma constructed_alive (dirname : string) (c : object) :
  alive (constructed dirname c).
Proof. eexists. split; reflexivity. Qed.

Lemma bind_appends (w : Window) (name : string) (f : callable) :
  registry_ok w -> alive w -> bind name f w = Done tt (bound w name f).
Proof.
  intros [Hlen _] (p & Ep & Hk). unfold bind, write, bind_M, this,
    set_callbacks, set_bindIndex, perform, log.
  cbn [config process callbacks bindIndex trace].
  rewrite Ep, Hk, <- Hlen, array_set_end. unfold bound.
  rewrite Ep, <- Hlen. reflexivity.
Qed.

Lemma bound_alive (w : Window) (name : string) (f : callable) :
  alive w -> alive (bound w name f).
Proof. exact (fun H => H). Qed.

Lemma bound_ok (w : Window) (name : string) (f : callable) :
  registry_ok w -> registry_ok (bound w name f).
Proof.
  intros [Hlen Hp]. split; cbn; [|assumption].
  rewrite length_app, Hlen. cbn. lia.
Qed.

(** A run of [bind] calls appends its callbacks, in order, and numbers them
    from the current index on. *)
Lemma bind_all_appends (binds : list (string * callable)) (w : Window) :
  registry_ok w -> alive w ->
  exists w',
    bind_all binds w = Done tt w'
    /\ (registry_ok w' /\ alive w')
    /\ callbacks w' = callbacks w ++ map (fun b => Some (snd b)) binds
    /\ bindIndex w' = bindIndex w + length binds
    /\ bind_ids binds w = seq (bindIndex w) (length binds)
    /\ trace w' = trace w ++ bind_writes (bindIndex w) binds
    /\ config w' = config w /\ process w' = process w.
Proof.
  revert w. induction binds as [|[name f] binds IH]; intros w Hok Hal.
  - exists w. cbn. rewrite !app_nil_r, Nat.add_0_r.
    repeat split; try apply Hok; try exact Hal.
  - destruct (IH (bound w name f) (bound_ok w name f Hok)
                (bound_alive w name f Hal))
      as (w' & Hrun & Hok' & Hcb & Hidx & Hids & Htr & Hcfg & Hproc).
    exists w'. cbn [bind_all bind_ids]. unfold bind_M.
    rewrite (bind_appends w name f Hok Hal), Hrun.
    split; [reflexivity|]. split; [exact Hok'|].
    repeat split.
    + rewrite Hcb. cbn. now rewrite <- app_assoc.
    + rewrite Hidx. cbn. lia.
    + rewrite Hids. reflexivity.
    + rewrite Htr. cbn. now rewrite <- app_assoc.
    + rewrite Hcfg. reflexivity.
    + rewrite Hproc. reflexivity.
Qed.

(** C7. On a fresh window, any run of [bind] calls is assigned the
    identifiers 0, 1, 2, ... in order, so no identifier is used twice; the
    registry then holds the callbacks in that order, and a further run of
    [bind] calls only appends to it: what was stored stays where it was. *)
Theorem C7_registry_append_only (dirname : string) (c : object)
  (first more : list (string * callable)) :
  exists w0 w1 w2,
    new_Window dirname c = Done tt w0
    /\ bind_all first w0 = Done tt w1
    /\ bind_all more w1 = Done tt w2
    /\ bind_all (first ++ more) w0 = Done tt w2
    /\ bind_ids (first ++ more) w0 = seq 0 (length (first ++ more))
    /\ NoDup (bind_ids (first ++ more) w0)
    /\ callbacks w1 = map (fun b => Some (snd b)) first
    /\ callbacks w2 = callbacks w1 ++ map (fun b => Some (snd b)) more
    /\ bindIndex w2 = length (first ++ more)
    /\ trace w2 = trace w0 ++ bind_writes 0 (first ++ more).
Proof.
  destruct (bind_all_appends first (constructed dirname c)
              (constructed_ok dirname c) (constructed_alive dirname c))
    as (w1 & R1 & [Ok1 Al1] & Cb1 & Ix1 & _ & _ & _ & _).
  destruct (bind_all_appends more w1 Ok1 Al1)
    as (w2 & R2 & _ & Cb2 & Ix2 & _ & _ & _ & _).
  destruct (bind_all_appends (first ++ more) (constructed dirname c)
              (constructed_ok dirname c) (constructed_alive dirname c))
    as (w2' & R & _ & _ & _ & Ids & Tr & _ & _).
  assert (E : bind_all (first ++ more) (constructed dirname c) = Done tt w2).
  { clear - R1 R2. revert R1. generalize (constructed dirname c).
    induction first as [|[name f] first IH]; intros w R1; cbn in *.
    - unfold ret in R1. injection R1 as <-. exact R2.
    - unfold bind_M in *. destruct (bind name f w); try discriminate.
      now apply IH. }
  exists (constructed dirname c), w1, w2.
  rewrite new_Window_constructed.
  split; [reflexivity|]. split; [exact R1|]. split; [exact R2|].
  split; [exact E|]. split; [exact Ids|].
  split; [rewrite Ids; apply seq_NoDup|].
  split; [exact Cb1|]. split; [exact Cb2|].
  split; [rewrite Ix2, Ix1, length_app; reflexivity|].
  rewrite E in R. injection R as <-. exact Tr.
Qed.

End Registry.

(** ** The registry is never touched by anything but [bind] *)

Module Invariant.
Import Construction Registry.
Local Open Scope list_scope.

Lemma same_registry_refl (w : Window) : same_registry w w.
Proof. repeat split. exact (fun H => H). Qed.

Lemma same_registry_trans (w1 w2 w3 : Window) :
  same_registry w1 w2 -> same_registry w2 w3 -> same_registry w1 w3.
Proof.
  intros (A1 & B1 & C1) (A2 & B2 & C2). repeat split; try congruence.
  intros H. exact (C2 (C1 H)).
Qed.

Lemma keeps_ret {A} (a : A) : keeps (ret a).
Proof. intros w. apply same_registry_refl. Qed.

Lemma keeps_throw {A} (e : js_error) : keeps (@throw A e).
Proof. intros w. apply same_registry_refl. Qed.

Lemma keeps_unmodelled {A} : keeps (@unmodelled A).
Proof. intros w. exact I. Qed.

Lemma keeps_this : keeps this.
Proof. intros w. apply same_registry_refl. Qed.

Lemma keeps_perform (e : effect) : keeps (perform e).
Proof. intros w. repeat split. exact (fun H => H). Qed.

Lemma keeps_set_process (p : Subprocess) : keeps (set_process (Some p)).
Proof. intros w. repeat split. discriminate. Qed.

Lemma keeps_bind {A B} (m : M A) (k : A -> M B) :
  keeps m -> (forall a, keeps (k a)) -> keeps (bind_M m k).
Proof.
  intros Hm Hk w. unfold bind_M. specialize (Hm w).
  destruct (m w) as [a w1|e w1|]; [|exact Hm|exact I].
  specialize (Hk a w1).
  destruct (k a w1) as [b w2|e w2|]; [| |exact I];
    exact (same_registry_trans _ _ _ Hm Hk).
Qed.

Ltac keeps :=
  repeat first
    [ apply keeps_ret | apply keeps_throw | apply keeps_unmodelled
    | apply keeps_this | apply keeps_perform | apply keeps_set_process
    | apply keeps_bind; [|intros ?]
    | match goal with
      | |- keeps (if ?b then _ else _) => destruct b
      | |- keeps (match ?x with _ => _ end) => destruct x
      end ].

Lemma keeps_write (type data : string) : keeps (write type data).
Proof. unfold write. keeps. Qed.

Lemma keeps_process_kill : keeps process_kill.
Proof. unfold process_kill. keeps. Qed.

Lemma keeps_destroy : keeps destroy.
Proof. unfold destroy, emit. keeps. Qed.

Lemma keeps_dispatch (msg : value) : keeps (dispatch msg).
Proof.
  unfold dispatch, get_prop, loose_eq, JSON_parse_value, emit, array_get,
    spread_args.
  keeps.
Qed.

Lemma keeps_stdout (chunk : string) : keeps (stdout chunk).
Proof. unfold stdout. destruct (JSON.JSON_parse chunk); [apply keeps_dispatch|keeps]. Qed.

Lemma keeps_stderr (chunk : string) : keeps (stderr chunk).
Proof. unfold stderr. keeps. Qed.

Lemma same_registry_ok (w w' : Window) :
  registry_ok w -> same_registry w w' -> registry_ok w'.
Proof.
  intros [Hlen Hp] (Hc & Hi & Hq). split; [congruence|auto].
Qed.

(** [bind] either appends, or meets a killed process. *)
Lemma bind_outcome (w : Window) (name : string) (f : callable) :
  registry_ok w ->
  bind name f w = Done tt (bound w name f) \/ bind name f w = Unmodelled.
Proof.
  intros Hok. destruct Hok as [Hlen Hp].
  destruct (process w) as [p|] eqn:Ep; [|congruence].
  destruct (killed p) eqn:Hk.
  - right. unfold bind, write, bind_M, this, set_callbacks.
    cbn [config process callbacks bindIndex trace]. now rewrite Ep, Hk.
  - left. apply bind_appends; [split; [exact Hlen|congruence]|].
    now exists p.
Qed.

(** A call leaves the registry as it was or appends one entry to it, and
    the index follows. *)
Lemma run_extends_registry (c : call) (w w' : Window) :
  registry_ok w ->
  (run c w = Done tt w' \/ exists e, run c w = Raise e w') ->
  registry_ok w'
  /\ exists added, callbacks w' = callbacks w ++ added
                   /\ bindIndex w' = bindIndex w + length added.
Proof.
  intros Hok Hrun.
  assert (Hkeep : forall m : M unit, keeps m ->
            (m w = Done tt w' \/ exists e, m w = Raise e w') ->
            registry_ok w'
            /\ exists added, callbacks w' = callbacks w ++ added
                             /\ bindIndex w' = bindIndex w + length added).
  { intros m Hm H.
    assert (Hs : same_registry w w').
    { destruct H as [H|[e H]]; specialize (Hm w); now rewrite H in Hm. }
    split; [exact (same_registry_ok _ _ Hok Hs)|].
    exists []. destruct Hs as (Hc & Hi & _).
    now rewrite app_nil_r, Nat.add_0_r. }
  destruct c; cbn [run] in Hrun;
    try (revert Hrun; apply Hkeep;
         first [ apply keeps_write | apply keeps_destroy
               | apply keeps_stdout | apply keeps_stderr ]).
  destruct (bind_outcome w name f Hok) as [Hb|Hb]; rewrite Hb in Hrun.
  - destruct Hrun as [H|[e H]]; [|discriminate]. injection H as <-.
    split; [now apply bound_ok|]. exists [Some f]. split; [reflexivity|].
    cbn. lia.
  - destruct Hrun as [H|[e H]]; discriminate.
Qed.

(** Whatever happens to a window, its registry only grows at the end. *)
Lemma later_extends_registry (w0 w : Window) :
  registry_ok w0 -> later w0 w ->
  registry_ok w /\ exists added, callbacks w = callbacks w0 ++ added.
Proof.
  intros Hok. induction 1 as [|w c w' _ IH Hrun|w c e w' _ IH Hrun].
  - split; [exact Hok|]. exists []. now rewrite app_nil_r.
  - destruct IH as [Hw [a Ha]].
    destruct (run_extends_registry c w w' Hw (or_introl Hrun))
      as [Hw' [b [Hb _]]].
    split; [exact Hw'|]. exists (a ++ b). now rewrite Hb, Ha, app_assoc.
  - destruct IH as [Hw [a Ha]].
    destruct (run_extends_registry c w w' Hw
                (or_intror (ex_intro _ e Hrun))) as [Hw' [b [Hb _]]].
    split; [exact Hw'|]. exists (a ++ b). now rewrite Hb, Ha, app_assoc.
Qed.

(** Every window a program can see holds exactly the identifiers issued so
    far: only [bind] changes the registry, and it appends. *)
Theorem reachable_registry_ok (w : Window) : reachable w -> registry_ok w.
Proof.
  intros (dirname & c & H).
  exact (proj1 (later_extends_registry _ _ (constructed_ok dirname c) H)).
Qed.

End Invariant.

(** ** Inbound dispatch *)

Module Dispatch.
Import Construction Registry Invariant.
Local Open Scope list_scope.

Lemma log_log (w : Window) (a b : list effect) :
  log (log w a) b = log w (a ++ b).
Proof. unfold log. cbn. now rewrite app_assoc. Qed.

(** Unfolds the handler and the monad, leaving property reads, the registry
    lookup and the comparisons with literals in place. *)
Ltac run :=
  cbv beta iota delta
    [dispatch stdout bind_M get_prop ret throw unmodelled this emit perform
     loose_eq spread_args JSON_parse_value process_kill set_process].

Ltac literals := cbn [loose_eq_lit String.eqb Ascii.eqb Bool.eqb]; cbv beta iota.



(** A [bindCallback] envelope that names an entry of the registry invokes
    that entry, once, with the elements of its [data]. *)
Lemma dispatch_registered (w : Window) (o : object) (m e : Z) (i : nat)
  (f : callable) (args : list value) :
  nth_error (callbacks w) i = Some (Some f) ->
  obj_get o "type" = VString "bindCallback" ->
  obj_get o "id" = VNumber m e ->
  number_to_int m e = Some (Z.of_nat i) ->
  obj_get o "data" = VArray args ->
  dispatch (VObject o) w = Done tt (log w [Invoke f args]).
Proof.
  intros Hnth Hty Hid Hint Hdata.
  run. rewrite Hty, Hid, Hdata. literals.
  unfold array_get. rewrite Hint. run.
  destruct (Z.of_nat i <? 0)%Z eqn:Hneg; [apply Z.ltb_lt in Hneg; lia|].
  now rewrite Nat2Z.id, (nth_error_nth _ _ None Hnth).
Qed.

(** C8. A callable [f] registered by [bind] is assigned the current index
    as its identifier; whatever happens to the window afterwards, a
    [bindCallback] envelope with that [id] invokes [f]: once, with the
    elements of the envelope's [data] as its arguments, and nothing else
    happens.  So after [bind("add", f)] on a fresh window the line
    [{"type":"bindCallback","id":0,"data":[2,3]}] invokes [f(2, 3)]. *)
Theorem C8_bound_callback_invoked (w0 w1 w : Window) (name : string)
  (f : callable) (o : object) (m e : Z) (args : list value)
  (dirname : string) (c : object) :
  reachable w0 ->
  bind name f w0 = Done tt w1 ->
  later w1 w ->
  obj_get o "type" = VString "bindCallback" ->
  obj_get o "id" = VNumber m e ->
  number_to_int m e = Some (Z.of_nat (bindIndex w0)) ->
  obj_get o "data" = VArray args ->
  dispatch (VObject o) w = Done tt (log w [Invoke f args])
  /\ (bind "add" f ;; stdout Samples.add_text) (constructed dirname c)
     = Done tt (log (bound (constructed dirname c) "add" f)
                  [Invoke f [VNumber 2 0; VNumber 3 0]]).
Proof.
  intros Hreach Hbind Hlater Hty Hid Hint Hdata. split.
  - pose proof (reachable_registry_ok w0 Hreach) as Hok.
    destruct (bind_outcome w0 name f Hok) as [Hb|Hb]; rewrite Hb in Hbind;
      [|discriminate].
    injection Hbind as <-.
    destruct (later_extends_registry _ _ (bound_ok w0 name f Hok) Hlater)
      as [_ [added Hadd]].
    apply (dispatch_registered w o m e (bindIndex w0) f args);
      try assumption.
    rewrite Hadd. cbn [bound callbacks]. rewrite <- app_assoc.
    destruct Hok as [Hlen _]. rewrite <- Hlen.
    rewrite nth_error_app2 by lia. now rewrite Nat.sub_diag.
  - unfold bind_M. rewrite (bind_appends _ "add" f (constructed_ok dirname c)
               (constructed_alive dirname c)).
    reflexivity.
Qed.

(** C9. The line [{"type":"event","data":"{\"event\":\"close\"}"}] makes
    the handler kill the process and then emit [close] with no argument:
    one kill, one emission, in that order, so every subscriber of [close]
    is called exactly once. *)
Theorem C9_close_kills_then_emits (w : Window) (p : Subprocess)
  (subs : subscriptions) :
  process w = Some p ->
  stdout Samples.close_text w
  = Done tt (log (terminated w) [Emit (VString "close") []])
  /\ process (terminated w) = Some {| cmd := cmd p; killed := true |}
  /\ trace (log (terminated w) [Emit (VString "close") []])
     = trace w ++ [Kill; Emit (VString "close") []]
  /\ subscriber_calls subs [Kill; Emit (VString "close") []]
     = map (fun s => (snd s, []))
         (filter (fun s => String.eqb (fst s) "close") subs).
Proof.
  intros Hp. split; [|split; [|split]].
  - unfold stdout.
    replace (JSON.JSON_parse Samples.close_text)
      with (Some (VObject [("type", VString "event");
                           ("data", VString (q "{'event':'close'}"))]))
      by (vm_compute; reflexivity).
    run. cbn [obj_get]. literals.
    replace (JSON.JSON_parse (q "{'event':'close'}"))
      with (Some (VObject [("event", VString "close")]))
      by (vm_compute; reflexivity).
    cbn [obj_get]. literals. rewrite Hp.
    unfold terminated, log. cbn. rewrite Hp. reflexivity.
  - unfold terminated. cbn. now rewrite Hp.
  - cbn. now rewrite <- app_assoc.
  - cbn. unfold listener_calls. now rewrite app_nil_r.
Qed.


(** C4. The line
    [{"type":"internalEvent","data":{"event":"ready","data":null}}] makes
    the handler emit [ready] with one argument, [null]: every subscriber of
    [ready] is called with that argument. *)
Theorem C4_internal_event_passes_null (w : Window) (subs : subscriptions) :
  stdout Samples.ready_text w
  = Done tt (log w [Emit (VString "ready") [VNull]])
  /\ subscriber_calls subs [Emit (VString "ready") [VNull]]
     = map (fun s => (snd s, [VNull]))
         (filter (fun s => String.eqb (fst s) "ready") subs).
Proof.
  split.
  - unfold stdout.
    replace (JSON.JSON_parse Samples.ready_text)
      with (Some Samples.ready_envelope)
      by (vm_compute; reflexivity).
    reflexivity.
  - cbn. unfold listener_calls. now rewrite app_nil_r.
Qed.



Lemma C8_bound_callback_invoked_witness :
  reachable Samples.fresh
  /\ bind "add" 7 Samples.fresh = Done tt (bound Samples.fresh "add" 7)
  /\ later (bound Samples.fresh "add" 7)
       (log (bound Samples.fresh "add" 7) [Emit (VString "ready") [VNull]])
  /\ dispatch (VObject (Samples.add_envelope 0))
       (log (bound Samples.fresh "add" 7) [Emit (VString "ready") [VNull]])
     = Done tt (log (log (bound Samples.fresh "add" 7)
                       [Emit (VString "ready") [VNull]])
                  [Invoke 7 [VNumber 2 0; VNumber 3 0]]).
Proof.
  assert (H1 : reachable Samples.fresh)
    by (exists "/app/lib", []; apply later_now).
  assert (H2 : bind "add" 7 Samples.fresh
               = Done tt (bound Samples.fresh "add" 7)) by reflexivity.
  assert (H3 : later (bound Samples.fresh "add" 7)
                 (log (bound Samples.fresh "add" 7)
                    [Emit (VString "ready") [VNull]]))
    by (apply (later_done _ (bound Samples.fresh "add" 7)
                 (ChunkStdout Samples.ready_line));
        [apply later_now | vm_compute; reflexivity]).
  split; [exact H1|]. split; [exact H2|]. split; [exact H3|].
  apply (C8_bound_callback_invoked Samples.fresh _ _ "add" 7
           (Samples.add_envelope 0) 0 0 [VNumber 2 0; VNumber 3 0]
           "/app/lib" [] H1 H2 H3); reflexivity.
Defined.

Lemma C9_close_kills_then_emits_witness :
  process Samples.fresh
  = Some {| cmd := EXE_PATH "/app/lib" :: default_args; killed := false |}
  /\ stdout Samples.close_text Samples.fresh
     = Done tt (log (terminated Samples.fresh) [Emit (VString "close") []]).
Proof.
  split; [reflexivity|].
  apply (C9_close_kills_then_emits Samples.fresh
           {| cmd := EXE_PATH "/app/lib" :: default_args; killed := false |}
           [("close", 1)]).
  reflexivity.
Defined.


(** On the line of the scenario the subscriber of [ready] is called with
    the argument [null], not with no argument. *)
Lemma C4_counterexample :
  stdout Samples.ready_text Samples.fresh
  = Done tt (log Samples.fresh [Emit (VString "ready") [VNull]])
  /\ subscriber_calls [("ready", 1)] [Emit (VString "ready") [VNull]]
     = [(1, [VNull])]
  /\ subscriber_calls [("ready", 1)] [Emit (VString "ready") [VNull]]
     <> [(1, [])].
Proof.
  split; [vm_compute; reflexivity|]. split; [reflexivity|]. discriminate.
Qed.



End Dispatch.

(** ** The read loop *)

Module Decoder.
Import Samples.
Local Open Scope list_scope.

Lemma segments_nonempty (s : string) : segments s <> [].
Proof.
  induction s as [|c s IH]; cbn [segments]; [discriminate|].
  destruct (segments s); [contradiction|].
  destruct (Ascii.eqb c newline); discriminate.
Qed.

Lemma segments_line (body rest : string) :
  no_newline body = true ->
  segments (body ++ String newline rest)%string = body :: segments rest.
Proof.
  induction body as [|c body IH]; cbn [no_newline append segments].
  - intros _. change (Ascii.eqb newline newline) with true.
    pose proof (segments_nonempty rest). now destruct (segments rest).
  - intros H. apply andb_true_iff in H. destruct H as [Hc Hb].
    rewrite (IH Hb). apply negb_true_iff in Hc. now rewrite Hc.
Qed.

(** Splitting a text made of whole lines gives the lines back, and nothing
    is left pending. *)
Lemma segments_lines (bodies : list string) :
  Forall (fun b => no_newline b = true) bodies ->
  segments (concat_all (map line bodies)) = bodies ++ [""%string].
Proof.
  induction 1 as [|b bodies Hb _ IH]; [reflexivity|].
  cbn [map concat_all app]. unfold line at 1.
  rewrite append_assoc. cbn [append]. now rewrite (segments_line _ _ Hb), IH.
Qed.

Lemma line_decoder_lines (bodies : list string) :
  Forall (fun b => no_newline b = true) bodies ->
  line_decoder (concat_all (map line bodies)) = parse_all bodies
  /\ pending (concat_all (map line bodies)) = ""%string.
Proof.
  intros H. unfold line_decoder, complete_lines, pending.
  rewrite (segments_lines _ H). now rewrite removelast_last, last_last.
Qed.






End Decoder.

(** ** Further properties of the inbound handler *)

Module Inbound.
Import Construction Registry Invariant Dispatch.
Local Open Scope list_scope.

(** X1. An [event] envelope whose nested object names the event ["close"]
    does what [destroy()] does, whatever else the nested object holds: it
    kills the process and emits [close] with no argument. *)
Theorem close_event_is_destroy (w : Window) (o : object) (s : string)
  (evt : object) :
  obj_get o "type" = VString "event" ->
  obj_get o "data" = VString s ->
  JSON.JSON_parse s = Some (VObject evt) ->
  obj_get evt "event" = VString "close" ->
  dispatch (VObject o) w = destroy w.
Proof.
  intros Hty Hdata Hparse Hname.
  run. rewrite Hty, Hdata. literals. rewrite Hparse, Hname. literals.
  reflexivity.
Qed.

Lemma close_event_is_destroy_witness :
  JSON.JSON_parse (q "{'event':'close','data':{'x':1}}")
  = Some (VObject [("event", VString "close");
                   ("data", VObject [("x", VNumber 1 0)])])
  /\ dispatch
       (VObject [("type", VString "event");
                 ("data", VString (q "{'event':'close','data':{'x':1}}"))])
       Samples.fresh
     = destroy Samples.fresh.
Proof.
  assert (H : JSON.JSON_parse (q "{'event':'close','data':{'x':1}}")
              = Some (VObject [("event", VString "close");
                               ("data", VObject [("x", VNumber 1 0)])]))
    by (vm_compute; reflexivity).
  split; [exact H|].
  apply (close_event_is_destroy Samples.fresh
           [("type", VString "event");
            ("data", VString (q "{'event':'close','data':{'x':1}}"))]
           (q "{'event':'close','data':{'x':1}}")
           [("event", VString "close");
            ("data", VObject [("x", VNumber 1 0)])]);
    [reflexivity | reflexivity | exact H | reflexivity].
Defined.



(** X3. An [internalEvent] envelope without [data], or whose [data] is
    [null], makes the handler throw a TypeError before anything is
    emitted. *)
Theorem internal_event_without_data (w : Window) (o : object) :
  obj_get o "type" = VString "internalEvent" ->
  obj_get o "data" = VUndefined \/ obj_get o "data" = VNull ->
  dispatch (VObject o) w = Raise TypeError w.
Proof.
  intros Hty [Hdata|Hdata]; run; rewrite Hty, Hdata; literals; reflexivity.
Qed.

Lemma internal_event_without_data_witness :
  dispatch (VObject [("type", VString "internalEvent")]) Samples.fresh
  = Raise TypeError Samples.fresh.
Proof.
  apply (internal_event_without_data Samples.fresh
           [("type", VString "internalEvent")]);
    [reflexivity | left; reflexivity].
Defined.

(** X4. An [event] envelope whose [data] is missing, or is a string that is
    not a JSON text, makes the handler throw a SyntaxError; the process is
    not killed and nothing is emitted. *)
Theorem event_with_bad_payload (w : Window) (o : object) :
  obj_get o "type" = VString "event" ->
  obj_get o "data" = VUndefined
  \/ (exists s, obj_get o "data" = VString s /\ JSON.JSON_parse s = None) ->
  dispatch (VObject o) w = Raise SyntaxError w.
Proof.
  intros Hty [Hdata|(s & Hdata & Hparse)]; run; rewrite Hty, Hdata; literals.
  - reflexivity.
  - now rewrite Hparse.
Qed.

Lemma event_with_bad_payload_witness :
  JSON.JSON_parse "{event:close}" = None
  /\ dispatch (VObject [("type", VString "event");
                        ("data", VString "{event:close}")]) Samples.fresh
     = Raise SyntaxError Samples.fresh.
Proof.
  assert (H : JSON.JSON_parse "{event:close}" = None)
    by (vm_compute; reflexivity).
  split; [exact H|].
  apply (event_with_bad_payload Samples.fresh
           [("type", VString "event"); ("data", VString "{event:close}")]);
    [reflexivity | right; eexists; split; [reflexivity | exact H]].
Defined.

(** X5. A chunk that is a JSON text but not an object is never dispatched:
    a number, a string, a boolean or an array is dropped without a trace,
    and [null] makes the handler throw a TypeError. *)
Theorem chunk_not_an_object (w : Window) (chunk : string) (v : value) :
  JSON.JSON_parse chunk = Some v ->
  is_object v = false ->
  stdout chunk w
  = match v with
    | VNull | VUndefined => Raise TypeError w
    | _ => Done tt w
    end.
Proof.
  intros Hparse Hobj. unfold stdout. rewrite Hparse.
  destruct v; try discriminate; reflexivity.
Qed.

Lemma chunk_not_an_object_witness :
  JSON.JSON_parse "[1,2]" = Some (VArray [VNumber 1 0; VNumber 2 0])
  /\ stdout "[1,2]" Samples.fresh = Done tt Samples.fresh
  /\ stdout " null " Samples.fresh = Raise TypeError Samples.fresh.
Proof.
  assert (H1 : JSON.JSON_parse "[1,2]"
               = Some (VArray [VNumber 1 0; VNumber 2 0]))
    by (vm_compute; reflexivity).
  assert (H2 : JSON.JSON_parse " null " = Some VNull)
    by (vm_compute; reflexivity).
  split; [exact H1|]. split.
  - exact (chunk_not_an_object Samples.fresh _ _ H1 eq_refl).
  - exact (chunk_not_an_object Samples.fresh _ _ H2 eq_refl).
Defined.

(** X6. A [bindCallback] envelope that names a registered callable but whose
    [data] cannot be spread (it is missing, [null], a boolean, a number or
    an object) makes the handler throw a TypeError, and the callable is not
    invoked. *)
Theorem callback_with_bad_arguments (w : Window) (o : object) (m e : Z)
  (i : nat) (f : callable) :
  nth_error (callbacks w) i = Some (Some f) ->
  obj_get o "type" = VString "bindCallback" ->
  obj_get o "id" = VNumber m e ->
  number_to_int m e = Some (Z.of_nat i) ->
  not_iterable (obj_get o "data") = true ->
  dispatch (VObject o) w = Raise TypeError w.
Proof.
  intros Hnth Hty Hid Hint Hdata.
  run. rewrite Hty, Hid. literals.
  unfold array_get. rewrite Hint. run.
  destruct (Z.of_nat i <? 0)%Z eqn:Hneg; [apply Z.ltb_lt in Hneg; lia|].
  rewrite Nat2Z.id, (nth_error_nth _ _ None Hnth).
  destruct (obj_get o "data"); try discriminate; reflexivity.
Qed.

Lemma callback_with_bad_arguments_witness :
  nth_error (callbacks (bound Samples.fresh "add" 7)) 0 = Some (Some 7)
  /\ dispatch (VObject [("type", VString "bindCallback");
                        ("id", VNumber 0 0); ("data", VNumber 5 0)])
       (bound Samples.fresh "add" 7)
     = Raise TypeError (bound Samples.fresh "add" 7).
Proof.
  split; [reflexivity|].
  apply (callback_with_bad_arguments (bound Samples.fresh "add" 7)
           [("type", VString "bindCallback");
            ("id", VNumber 0 0); ("data", VNumber 5 0)] 0 0 0 7);
    reflexivity.
Defined.

End Inbound.

(** ** What a call may do, and what no call does *)

Module Footprint.
Import Construction Registry Invariant Dispatch.
Local Open Scope list_scope.

Lemma steady_refl (P : effect -> Prop) (w : Window) : steady P w w.
Proof.
  split; [exists []; split; [now rewrite app_nil_r | constructor]|].
  repeat split. intros p Hp Hk. now exists p.
Qed.

Lemma steady_trans (P : effect -> Prop) (w1 w2 w3 : Window) :
  steady P w1 w2 -> steady P w2 w3 -> steady P w1 w3.
Proof.
  intros ((es1 & T1 & F1) & C1 & M1 & K1) ((es2 & T2 & F2) & C2 & M2 & K2).
  split; [exists (es1 ++ es2); split|repeat split].
  - now rewrite T2, T1, app_assoc.
  - now apply Forall_app.
  - congruence.
  - congruence.
  - intros p Hp Hk. destruct (K1 p Hp Hk) as (p' & Hp' & Hk').
    exact (K2 p' Hp' Hk').
Qed.

Lemma steady_weaken (P Q : effect -> Prop) (w w' : Window) :
  (forall e, P e -> Q e) -> steady P w w' -> steady Q w w'.
Proof.
  intros HPQ ((es & T & F) & R). split; [|exact R].
  exists es. split; [exact T|]. revert F. apply Forall_impl. exact HPQ.
Qed.

Lemma within_weaken {A} (P Q : effect -> Prop) (m : M A) :
  (forall e, P e -> Q e) -> within P m -> within Q m.
Proof.
  intros HPQ Hm w. specialize (Hm w).
  destruct (m w); try exact I; exact (steady_weaken _ _ _ _ HPQ Hm).
Qed.

Lemma within_ret {A} P (a : A) : within P (ret a).
Proof. intros w. apply steady_refl. Qed.

Lemma within_throw {A} P (e : js_error) : within P (@throw A e).
Proof. intros w. apply steady_refl. Qed.

Lemma within_unmodelled {A} P : within P (@unmodelled A).
Proof. intros w. exact I. Qed.

Lemma within_this P : within P this.
Proof. intros w. apply steady_refl. Qed.

Lemma within_perform (P : effect -> Prop) (e : effect) :
  P e -> within P (perform e).
Proof.
  intros He w. split; [exists [e]; split; [reflexivity|now constructor]|].
  repeat split. intros p Hp Hk. now exists p.
Qed.

Lemma within_set_callbacks P (c : list (option callable)) :
  within P (set_callbacks c).
Proof.
  intros w. split; [exists []; split; [cbn; now rewrite app_nil_r|constructor]|].
  repeat split. intros p Hp Hk. now exists p.
Qed.

Lemma within_set_bindIndex P (n : nat) : within P (set_bindIndex n).
Proof.
  intros w. split; [exists []; split; [cbn; now rewrite app_nil_r|constructor]|].
  repeat split. intros p Hp Hk. now exists p.
Qed.

Lemma within_bind {A B} P (m : M A) (k : A -> M B) :
  within P m -> (forall a, within P (k a)) -> within P (bind_M m k).
Proof.
  intros Hm Hk w. unfold bind_M. specialize (Hm w).
  destruct (m w) as [a w1|e w1|]; [|exact Hm|exact I].
  specialize (Hk a w1).
  destruct (k a w1) as [b w2|e w2|]; [| |exact I];
    exact (steady_trans _ _ _ _ Hm Hk).
Qed.

Lemma within_process_kill (P : effect -> Prop) :
  P Kill -> within P process_kill.
Proof.
  intros HP w. unfold process_kill, bind_M, this, set_process, perform, throw.
  destruct (process w) as [p|] eqn:Hp; [|apply steady_refl].
  split; [exists [Kill]; split; [reflexivity|now constructor]|].
  cbn [log config process]. rewrite Hp. repeat split.
  intros p0 _ _. eexists. split; reflexivity.
Qed.

Ltac within :=
  repeat first
    [ apply within_ret | apply within_throw | apply within_unmodelled
    | apply within_this | apply within_set_callbacks
    | apply within_set_bindIndex
    | apply within_process_kill; exact I
    | apply within_perform; exact I
    | apply within_bind; [|intros ?]
    | match goal with
      | |- within _ (if ?b then _ else _) => destruct b
      | |- within _ (match ?x with _ => _ end) => destruct x
      end ].

Lemma within_dispatch (msg : value) : within inbound_effect (dispatch msg).
Proof.
  unfold dispatch, get_prop, loose_eq, JSON_parse_value, emit, array_get,
    spread_args.
  within.
Qed.

Lemma within_write (type data : string) : within is_write (write type data).
Proof. unfold write. within. Qed.

Lemma within_bind_call (name : string) (f : callable) :
  within is_write (bind name f).
Proof. unfold bind. within; apply within_write. Qed.

Lemma within_run (c : call) : within not_spawn (run c).
Proof.
  destruct c; cbn [run].
  - apply (within_weaken is_write); [now intros []|apply within_bind_call].
  - apply (within_weaken is_write); [now intros []|apply within_write].
  - apply (within_weaken is_write); [now intros []|apply within_write].
  - apply (within_weaken is_write); [now intros []|apply within_write].
  - apply (within_weaken is_write); [now intros []|apply within_write].
  - apply (within_weaken is_write); [now intros []|apply within_write].
  - unfold destroy, emit. within.
  - unfold stdout. destruct (JSON.JSON_parse chunk); [|within].
    apply (within_weaken inbound_effect); [now intros []|].
    apply within_dispatch.
  - unfold stderr. within.
Qed.


(** X8. After construction nothing spawns a process or changes the
    configuration: at every window a program can see, the trace starts with
    the one [Spawn] of the constructor and holds no other, the process runs
    the command it was spawned with, and the configuration is the merged
    one. *)
Theorem spawned_exactly_once (w : Window) :
  reachable w ->
  exists dirname c es,
    trace w = Spawn (EXE_PATH dirname :: default_args) :: es
    /\ Forall not_spawn es
    /\ option_map cmd (process w) = Some (EXE_PATH dirname :: default_args)
    /\ config w = spread c default_config.
Proof.
  intros (dirname & c & H). exists dirname, c.
  assert (S : steady not_spawn (constructed dirname c) w).
  { induction H as [|w1 call w2 _ IH Hrun|w1 call e w2 _ IH Hrun].
    - apply steady_refl.
    - apply (steady_trans _ _ _ _ IH).
      pose proof (within_run call w1) as W. now rewrite Hrun in W.
    - apply (steady_trans _ _ _ _ IH).
      pose proof (within_run call w1) as W. now rewrite Hrun in W. }
  destruct S as ((es & T & F) & C & M & _). exists es.
  repeat split; assumption.
Qed.

Lemma spawned_exactly_once_witness :
  reachable (bound Samples.fresh "add" 7)
  /\ exists dirname c es,
       trace (bound Samples.fresh "add" 7)
       = Spawn (EXE_PATH dirname :: default_args) :: es
       /\ Forall not_spawn es
       /\ option_map cmd (process (bound Samples.fresh "add" 7))
          = Some (EXE_PATH dirname :: default_args)
       /\ config (bound Samples.fresh "add" 7) = spread c default_config.
Proof.
  assert (H : reachable (bound Samples.fresh "add" 7))
    by (exists "/app/lib", [];
        apply (later_done _ Samples.fresh (CallBind "add" 7));
        [apply later_now | reflexivity]).
  split; [exact H|]. exact (spawned_exactly_once _ H).
Defined.



(** X10. [destroy()] never fails at a window a program can see, and it has
    no guard: each call kills the process and emits [close] once more, also
    when the process has been killed before. *)
Theorem destroy_always_emits_close (w : Window) :
  reachable w ->
  destroy w = Done tt (log (terminated w) [Emit (VString "close") []])
  /\ (destroy ;; destroy) w
     = Done tt (log (terminated (log (terminated w)
                                   [Emit (VString "close") []]))
                  [Emit (VString "close") []]).
Proof.
  intros H. destruct (reachable_registry_ok w H) as [_ Hp].
  destruct (process w) as [p|] eqn:Ep; [|congruence].
  assert (D : forall w1 p1, process w1 = Some p1 ->
            destroy w1 = Done tt (log (terminated w1)
                                    [Emit (VString "close") []])).
  { intros w1 p1 E1. unfold destroy, process_kill, bind_M, this, set_process,
      perform, emit, terminated, log. rewrite E1. cbn. rewrite ?E1.
    reflexivity. }
  split; [exact (D w p Ep)|].
  unfold bind_M. rewrite (D w p Ep).
  apply (D _ {| cmd := cmd p; killed := true |}).
  cbn. now rewrite Ep.
Qed.

Lemma destroy_always_emits_close_witness :
  reachable Samples.fresh
  /\ destroy Samples.fresh
     = Done tt (log (terminated Samples.fresh) [Emit (VString "close") []]).
Proof.
  assert (H : reachable Samples.fresh)
    by (exists "/app/lib", []; apply later_now).
  split; [exact H|]. exact (proj1 (destroy_always_emits_close _ H)).
Defined.

End Footprint.

(** ** Further properties of the registry *)

Module RegistryLife.
Import Construction Registry Invariant Dispatch.
Local Open Scope list_scope.





(** X12. At any window a program can see whose process has not been killed,
    [bind] returns: it stores the callback in the slot numbered by the
    current index, leaves every earlier slot as it was, writes one [bind]
    command that names this index, and moves the index on by one. *)
Theorem bind_on_live_window (w : Window) (name : string) (f : callable) :
  reachable w -> alive w ->
  exists w',
    bind name f w = Done tt w'
    /\ nth_error (callbacks w') (bindIndex w) = Some (Some f)
    /\ firstn (bindIndex w) (callbacks w') = callbacks w
    /\ bindIndex w' = S (bindIndex w)
    /\ trace w'
       = trace w
         ++ [StdinWrite (JSON.envelope_text "bind"
                           (string_of_nat (bindIndex w) ++ ":" ++ name)%string)].
Proof.
  intros Hreach Hal. pose proof (reachable_registry_ok w Hreach) as Hok.
  exists (bound w name f). split; [exact (bind_appends w name f Hok Hal)|].
  destruct Hok as [Hlen _]. cbn [bound callbacks bindIndex trace].
  rewrite <- Hlen. repeat split.
  - rewrite nth_error_app2 by lia. now rewrite Nat.sub_diag.
  - rewrite firstn_app, Nat.sub_diag, firstn_all. cbn. now rewrite app_nil_r.
Qed.

Lemma bind_on_live_window_witness :
  reachable Samples.fresh /\ alive Samples.fresh
  /\ exists w',
       bind "add" 7 Samples.fresh = Done tt w'
       /\ nth_error (callbacks w') 0 = Some (Some 7)
       /\ firstn 0 (callbacks w') = []
       /\ bindIndex w' = 1
       /\ trace w'
          = trace Samples.fresh
            ++ [StdinWrite (JSON.envelope_text "bind"
                              (string_of_nat 0 ++ ":" ++ "add")%string)].
Proof.
  assert (H1 : reachable Samples.fresh)
    by (exists "/app/lib", []; apply later_now).
  assert (H2 : alive Samples.fresh) by (eexists; split; reflexivity).
  split; [exact H1|]. split; [exact H2|].
  exact (bind_on_live_window Samples.fresh "add" 7 H1 H2).
Defined.

End RegistryLife.

(** ** Further properties of the outbound side *)

Module Outbound.
Import Construction Registry Invariant Dispatch Decoder.
Local Open Scope list_scope.

Lemma no_newline_app (a b : string) :
  no_newline (a ++ b)%string = no_newline a && no_newline b.
Proof.
  induction a as [|c a IH]; cbn [append no_newline]; [reflexivity|].
  now rewrite IH, andb_assoc.
Qed.

Lemma no_newline_quote_char (c : ascii) :
  no_newline (JSON.quote_char c) = true.
Proof. destruct c as [[] [] [] [] [] [] [] []]; reflexivity. Qed.

Lemma no_newline_quote (s : string) : no_newline (JSON.quote s) = true.
Proof.
  unfold JSON.quote. cbn [no_newline].
  change (negb (Ascii.eqb dq newline)) with true. cbn [andb].
  rewrite no_newline_app. cbn [no_newline].
  change (negb (Ascii.eqb dq newline)) with true. cbn [andb].
  rewrite andb_true_r.
  induction s as [|c s IH]; cbn [JSON.quote_body no_newline]; [reflexivity|].
  now rewrite no_newline_app, no_newline_quote_char, IH.
Qed.

Lemma no_newline_stringify (type data : string) :
  no_newline (JSON.JSON_stringify_msg type data) = true.
Proof.
  unfold JSON.JSON_stringify_msg.
  rewrite !no_newline_app, !no_newline_quote. reflexivity.
Qed.

(** X13. The text of a command never holds a newline, whatever its type and
    its data (a newline in the data is escaped): the line [write] sends is
    one line, and the only newline in it is the last character. *)
Theorem command_is_one_line (type data : string) :
  no_newline (JSON.JSON_stringify_msg type data) = true
  /\ JSON.envelope_text type data = line (JSON.JSON_stringify_msg type data)
  /\ segments (JSON.envelope_text type data)
     = [JSON.JSON_stringify_msg type data; ""%string].
Proof.
  split; [apply no_newline_stringify|]. split; [reflexivity|].
  unfold JSON.envelope_text.
  now rewrite (segments_line _ _ (no_newline_stringify type data)).
Qed.

(** The line of a command is read back as the record of its type and
    data. *)
Lemma envelope_read_back (type data : string) :
  JSON.JSON_parse (JSON.envelope_text type data) = Some (record type data).
Proof.
  unfold JSON.JSON_parse, JSON.envelope_text.
  destruct (Codec.fuel_msg type data (String newline "")) as [f Hf].
  rewrite Hf, Codec.parse_value_msg. reflexivity.
Qed.

Lemma stringify_read_back (type data : string) :
  JSON.JSON_parse (JSON.JSON_stringify_msg type data)
  = Some (record type data).
Proof.
  unfold JSON.JSON_parse.
  destruct (Codec.fuel_msg type data "") as [f Hf].
  rewrite append_nil_r in Hf. rewrite Hf.
  rewrite <- (append_nil_r (JSON.JSON_stringify_msg type data)) at 1.
  rewrite Codec.parse_value_msg. reflexivity.
Qed.

(** X14. The commands a program sends make a well-formed stream: the text
    of any sequence of commands splits on newline into exactly their texts,
    nothing is left pending, and a reader that decodes it line by line
    gets the record of every command, in the order they were sent. *)
Theorem commands_frame_a_stream (commands : list (string * string)) :
  let stream :=
    concat_all (map (fun c => JSON.envelope_text (fst c) (snd c)) commands) in
  segments stream
  = map (fun c => JSON.JSON_stringify_msg (fst c) (snd c)) commands
    ++ [""%string]
  /\ pending stream = ""%string
  /\ line_decoder stream
     = Some (map (fun c => record (fst c) (snd c)) commands).
Proof.
  cbn zeta.
  assert (E : map (fun c => JSON.envelope_text (fst c) (snd c)) commands
              = map line (map (fun c => JSON.JSON_stringify_msg (fst c) (snd c))
                            commands)).
  { rewrite map_map. reflexivity. }
  rewrite E.
  assert (F : Forall (fun b => no_newline b = true)
                (map (fun c => JSON.JSON_stringify_msg (fst c) (snd c))
                   commands)).
  { apply Forall_forall. intros b Hb. apply in_map_iff in Hb.
    destruct Hb as (c & <- & _). apply no_newline_stringify. }
  destruct (line_decoder_lines _ F) as [D P].
  split; [exact (segments_lines _ F)|]. split; [exact P|].
  rewrite D. clear. induction commands as [|c commands IH]; [reflexivity|].
  cbn [map parse_all]. now rewrite stringify_read_back, IH.
Qed.

(** X15. On a window whose process has not been killed, [setTitle],
    [navigate], [eval] and [init] write exactly one line and do nothing
    else; the line is read back as the record of the command's type with
    the argument, verbatim, as its data. *)
Theorem command_writes_its_argument (w : Window) (c : command) :
  alive w ->
  send c w
  = Done tt (log w [StdinWrite (JSON.envelope_text (command_type c)
                                  (command_data c))])
  /\ JSON.JSON_parse (JSON.envelope_text (command_type c) (command_data c))
     = Some (record (command_type c) (command_data c)).
Proof.
  intros (p & Hp & Hk). split; [|apply envelope_read_back].
  destruct c; cbn [send command_type command_data];
    unfold setTitle, navigate, eval, init, write, bind_M, this;
    now rewrite Hp, Hk.
Qed.

Lemma command_writes_its_argument_witness :
  alive Samples.fresh
  /\ send (Navigate "https://bun.sh") Samples.fresh
     = Done tt (log Samples.fresh
                  [StdinWrite (JSON.envelope_text "navigate" "https://bun.sh")]).
Proof.
  assert (H : alive Samples.fresh) by (eexists; split; reflexivity).
  split; [exact H|].
  exact (proj1 (command_writes_its_argument Samples.fresh
                  (Navigate "https://bun.sh") H)).
Defined.

Lemma envelope_text_inj (type data data' : string) :
  JSON.envelope_text type data = JSON.envelope_text type data' ->
  data = data'.
Proof.
  intros H. pose proof (envelope_read_back type data) as R.
  rewrite H, envelope_read_back in R. now injection R.
Qed.

Lemma no_colon_uint (d : Decimal.uint) :
  no_colon (NilEmpty.string_of_uint d) = true.
Proof. induction d; cbn; auto. Qed.

Lemma no_colon_string_of_nat (n : nat) : no_colon (string_of_nat n) = true.
Proof.
  unfold string_of_nat, NilZero.string_of_uint.
  destruct (Nat.to_uint n); try reflexivity; apply no_colon_uint.
Qed.


(** The text before the first colon, and the text after it. *)
Lemma split_at_colon (a b x y : string) :
  no_colon a = true -> no_colon b = true ->
  (a ++ String ":" x)%string = (b ++ String ":" y)%string ->
  a = b /\ x = y.
Proof.
  revert b. induction a as [|c a IH]; intros [|c' b] Ha Hb H;
    cbn [append no_colon] in *.
  - injection H as <-. now split.
  - injection H as <- _. apply andb_true_iff in Hb.
    destruct Hb as [Hb _]. discriminate.
  - injection H as -> _. apply andb_true_iff in Ha.
    destruct Ha as [Ha _]. discriminate.
  - injection H as <- H. apply andb_true_iff in Ha, Hb.
    destruct (IH b (proj2 Ha) (proj2 Hb) H) as [-> ->]. now split.
Qed.

Lemma string_of_nat_inj (i j : nat) :
  string_of_nat i = string_of_nat j -> i = j.
Proof.
  unfold string_of_nat. intros H.
  assert (N : forall n, Nat.to_uint n <> Decimal.Nil).
  { intros n. rewrite <- (DecimalNat.Unsigned.of_to n) at 1.
    rewrite DecimalNat.Unsigned.to_of. apply DecimalFacts.unorm_nonnil. }
  apply DecimalNat.Unsigned.to_uint_inj.
  pose proof (NilZero.usu _ (N i)) as Ui.
  pose proof (NilZero.usu _ (N j)) as Uj.
  rewrite H in Ui. rewrite Ui in Uj. now injection Uj.
Qed.

(** X16. The [bind] command is unambiguous: two [bind] lines are the same
    text only when they carry the same identifier and the same name, so the
    native side can always tell which identifier a name was bound to. *)
Theorem bind_command_unambiguous (i j : nat) (name name' : string) :
  JSON.envelope_text "bind" (string_of_nat i ++ ":" ++ name)%string
  = JSON.envelope_text "bind" (string_of_nat j ++ ":" ++ name')%string ->
  i = j /\ name = name'.
Proof.
  intros H. apply envelope_text_inj in H.
  destruct (split_at_colon _ _ _ _ (no_colon_string_of_nat i)
              (no_colon_string_of_nat j) H) as [Hij Hn].
  split; [exact (string_of_nat_inj _ _ Hij)|exact Hn].
Qed.

Lemma bind_command_unambiguous_witness :
  JSON.envelope_text "bind" (string_of_nat 10 ++ ":" ++ "a:b")%string
  = JSON.envelope_text "bind" (string_of_nat 10 ++ ":" ++ "a:b")%string
  /\ 10 = 10 /\ "a:b"%string = "a:b"%string.
Proof.
  split; [reflexivity|].
  exact (bind_command_unambiguous 10 10 "a:b" "a:b" eq_refl).
Defined.




End Outbound.

(** ** The error stream, the loops and the constructor *)

Module Streams.
Import Construction Registry Invariant Dispatch Decoder.
Local Open Scope list_scope.

Lemma log_nil (w : Window) : log w [] = w.
Proof. destruct w. unfold log. cbn. now rewrite app_nil_r. Qed.

(** X18. The error stream is only logged: every chunk, whatever it holds,
    is printed once with the prefix ["(debug) "], in the order of arrival;
    it is never decoded, so the loop never throws, and nothing else
    happens to the window. *)
Theorem stderr_only_logs (chunks : list string) (w : Window) :
  stderr_loop chunks w
  = Done tt (log w (map (fun c => ConsoleLog ("(debug) " ++ c)%string) chunks)).
Proof.
  revert w. induction chunks as [|c chunks IH]; intros w.
  - cbn. now rewrite log_nil.
  - cbn [stderr_loop map]. unfold bind_M, stderr, DEBUG, perform.
    rewrite IH. now rewrite log_log.
Qed.






End Streams.
